(** * OpenFst: logging shim, weight tester and the fsttopsort driver

    A shallow embedding of

      - [src/include/fst/log.h]      (class [LogMessage], [FST_LOG],
                                      [VFST_LOG], [FstCheck], [FST_CHECK]),
      - [src/test/weight-tester.h]   (class template [WeightTester]),
      - [src/bin/fsttopsort-main.cc] ([fsttopsort_main]),

    followed by the properties established about them.

    Code that writes to [std::cerr] or calls [exit] is embedded in a small
    state-and-exit monad over the observable state of the process.  The
    template parameter [Weight] of the tester becomes a type class, the
    function object [WeightGenerator] a state machine whose state is
    threaded through the test loop. *)

From Stdlib Require Import ZArith NArith List String Ascii Bool Lia.
From Stdlib Require Import DecimalString.
Import ListNotations.

Open Scope string_scope.

(* ================================================================= *)
(** ** The process: standard error, the verbosity flag, library calls *)

(** What an execution leaves behind that the properties talk about: the
    characters sent to [std::cerr], the flag [FLAGS_v] declared by
    [DECLARE_int32(v)], and the calls made into the parts of the library
    that are outside these three files (events of type [E]). *)
Record World (E : Type) : Type := mkWorld {
  cerr : string;
  FLAGS_v : Z;
  trace : list E
}.
Arguments mkWorld {E} _ _ _.
Arguments cerr {E} _.
Arguments FLAGS_v {E} _.
Arguments trace {E} _.

(** A computation either returns to its caller or ends the process through
    [exit(code)]. *)
Inductive Outcome (A : Type) : Type :=
| Ret (a : A)
| Exit (code : Z).
Arguments Ret {A} a.
Arguments Exit {A} code.

Definition M (E A : Type) : Type := World E -> Outcome A * World E.

Definition ret {E A} (a : A) : M E A := fun w => (Ret a, w).

Definition bind {E A B} (m : M E A) (k : A -> M E B) : M E B :=
  fun w =>
    match m w with
    | (Ret a, w') => k a w'
    | (Exit c, w') => (Exit c, w')
    end.

Declare Scope proc_scope.
Delimit Scope proc_scope with proc.
Notation "x <- m ;; k" := (bind m (fun x => k))
  (at level 61, m at next level, right associativity) : proc_scope.
Notation "m ;; k" := (bind m (fun _ => k))
  (at level 61, right associativity) : proc_scope.
Open Scope proc_scope.

(** [exit(code)] *)
Definition exit {E A} (code : Z) : M E A := fun w => (Exit code, w).

(** [std::cerr << s] *)
Definition cerr_put {E} (s : string) : M E unit :=
  fun w => (Ret tt, mkWorld (cerr w ++ s) (FLAGS_v w) (trace w)).

(** Reading the global [FLAGS_v]. *)
Definition get_FLAGS_v {E} : M E Z := fun w => (Ret (FLAGS_v w), w).

(** Recording a call into the rest of the library. *)
Definition call {E} (e : E) : M E unit :=
  fun w => (Ret tt, mkWorld (cerr w) (FLAGS_v w) (trace w ++ [e])).

(** [when c m] is the statement [if (c) m;]. *)
Definition when {E} (c : bool) (m : M E unit) : M E unit :=
  if c then m else ret tt.

(** The double-quote character and the line end written by [std::endl]. *)
Definition dquote : string := String (ascii_of_nat 34) EmptyString.
Definition endl : string := String (ascii_of_nat 10) EmptyString.

(** [operator<<] on an [int]: decimal digits, with a sign when negative. *)
Definition show_int (z : Z) : string := NilZero.string_of_int (Z.to_int z).

(* ================================================================= *)
(** ** log.h *)

Module Log.

(** [class LogMessage]: the only data member is [fatal_]. *)
Record LogMessage : Type := { fatal_ : bool }.

(** Constructor:
    [LogMessage(const string &type) : fatal_(type == "FATAL")
       { std::cerr << type << ": "; }] *)
Definition LogMessage_new {E} (type : string) : M E LogMessage :=
  cerr_put type ;;
  cerr_put ": " ;;
  ret {| fatal_ := String.eqb type "FATAL" |}.

(** Destructor:
    [~LogMessage() { std::cerr << std::endl; if (fatal_) exit(1); }] *)
Definition LogMessage_delete {E} (l : LogMessage) : M E unit :=
  cerr_put endl ;;
  if fatal_ l then exit 1 else ret tt.

(** [FST_LOG(type) << ...]: the temporary is built, the insertions [body]
    go to [stream()], which is [std::cerr], and the temporary is destroyed
    at the end of the full expression. *)
Definition FST_LOG {E} (type : string) (body : M E unit) : M E unit :=
  l <- LogMessage_new type ;;
  body ;;
  LogMessage_delete l.

(** [VFST_LOG(level) << ...] is [if ((level) <= FLAGS_v) FST_LOG(INFO) << ...] *)
Definition VFST_LOG {E} (level : Z) (body : M E unit) : M E unit :=
  v <- get_FLAGS_v ;;
  when (level <=? v)%Z (FST_LOG "INFO" body).

(** [inline void FstCheck(bool x, const char *expr, const char *file, int line)] *)
Definition FstCheck {E} (x : bool) (expr file : string) (line : Z) : M E unit :=
  when (negb x)
    (FST_LOG "FATAL"
       (cerr_put ("Check failed: " ++ dquote) ;;
        cerr_put expr ;;
        cerr_put (dquote ++ " file: ") ;;
        cerr_put file ;;
        cerr_put " line: " ;;
        cerr_put (show_int line))).

(** The text a failed check leaves on standard error. *)
Definition check_failed_message (expr file : string) (line : Z) : string :=
  "FATAL: Check failed: " ++ dquote ++ expr ++ dquote ++ " file: " ++ file
    ++ " line: " ++ show_int line ++ endl.

End Log.
Import Log.

(* ================================================================= *)
(** ** The weight interface used by the tester *)

(** [weight.h] is not among the sources.  The tester only names the
    property bits, never their values, so the bits are an interface: one
    [uint64] mask per name. *)
Class PropertyMasks : Type := {
  kLeftSemiring : N;
  kRightSemiring : N;
  kSemiring : N;
  kCommutative : N;
  kIdempotent : N;
  kPath : N
}.

(** The two enumerators of [DivideType] the tester passes to [Divide]. *)
Inductive DivideType : Type := DIVIDE_LEFT | DIVIDE_RIGHT.

(** Conversion of an integer to [bool], as in [if (x & mask)] and in
    [static_cast<bool>(x)]. *)
Definition truthy (n : N) : bool := negb (n =? 0)%N.

(** What [WeightTester<Weight, _>] requires of its template argument
    [Weight]: every member and every free function the tester calls.
    [weq] is [operator==]; [ApproxEqual] is taken at its default
    tolerance; [Power] is the overload found for [Power(w, n)];
    [default_weight] is the value built by [Weight v;].  [Write] gives the
    bytes [w.Write(os)] leaves in the stream and [Read bs v] the value of
    [v] after [v.Read(is)] on a stream holding [bs]; [to_text] and
    [from_text] are [operator<<] and [operator>>] in the same way.

    [ReverseWeight] is [Weight::ReverseWeight], with the three operations
    the tester applies to its values; [rReverse] is
    [ReverseWeight::Reverse], whose result the tester compares with a
    [Weight].

    [copy_of w] is the value the copy constructor builds from [w], and
    [assign x w] the value of [x] after [x = w] ([operator=]). *)
Class Weight (W : Type) : Type := {
  Type_ : string;
  Zero : W;
  One : W;
  NoWeight : W;
  default_weight : W;
  Member : W -> bool;
  Plus : W -> W -> W;
  Times : W -> W -> W;
  Divide : W -> W -> DivideType -> W;
  Power : W -> N -> W;
  ApproxEqual : W -> W -> bool;
  weq : W -> W -> bool;
  Properties : N;
  Write : W -> list Byte.byte; Read : list Byte.byte -> W -> W;
  to_text : W -> string;
  from_text : string -> W -> W;
  ReverseWeight : Type;
  Reverse : W -> ReverseWeight;
  rReverse : ReverseWeight -> W;
  rPlus : ReverseWeight -> ReverseWeight -> ReverseWeight;
  rTimes : ReverseWeight -> ReverseWeight -> ReverseWeight;
  rweq : ReverseWeight -> ReverseWeight -> bool;
  copy_of : W -> W;
  assign : W -> W -> W
}.

(* ================================================================= *)
(** ** weight-tester.h *)

Module WeightTester.

Section Tester.

Context {E : Type}.
Context {masks : PropertyMasks}.
Context {W : Type} {weight : Weight W}.

(** [WeightGenerator]: a function object; [G] is its state and a call
    [weight_generator_()] returns a weight and leaves a new state. *)
Context {G : Type}.
Variable weight_generator_ : G -> W * G.

(** The value of [__FILE__] in the translation unit. *)
Variable FILE_ : string.

(** [FST_CHECK(x)] is [FstCheck(static_cast<bool>(x), #x, __FILE__, __LINE__)];
    [expr] is the text of the argument and [line] the line of the macro
    call in [weight-tester.h] (the line on which the call starts, for the
    two calls that take two lines). *)
Definition FST_CHECK (x : bool) (expr : string) (line : Z) : M E unit :=
  FstCheck x expr FILE_ line.

(** [Weight::Properties() & mask] in a condition. *)
Definition has (mask : N) : bool := truthy (N.land Properties mask).

(** [void TestSemiring(Weight w1, Weight w2, Weight w3)] *)
Definition TestSemiring (w1 w2 w3 : W) : M E unit :=
  FST_CHECK (Member (Plus w1 w2)) "Plus(w1, w2).Member()" 56 ;;
  FST_CHECK (Member (Times w1 w2)) "Times(w1, w2).Member()" 57 ;;

  FST_CHECK (ApproxEqual (Plus w1 (Plus w2 w3)) (Plus (Plus w1 w2) w3))
    "ApproxEqual(Plus(w1, Plus(w2, w3)), Plus(Plus(w1, w2), w3))" 60 ;;
  FST_CHECK (ApproxEqual (Times w1 (Times w2 w3)) (Times (Times w1 w2) w3))
    "ApproxEqual(Times(w1, Times(w2, w3)), Times(Times(w1, w2), w3))" 61 ;;

  FST_CHECK (weq (Plus w1 Zero) w1) "Plus(w1, Weight::Zero()) == w1" 64 ;;
  FST_CHECK (weq (Plus Zero w1) w1) "Plus(Weight::Zero(), w1) == w1" 65 ;;
  FST_CHECK (weq (Times w1 One) w1) "Times(w1, Weight::One()) == w1" 66 ;;
  FST_CHECK (weq (Times One w1) w1) "Times(Weight::One(), w1) == w1" 67 ;;

  FST_CHECK (negb (Member NoWeight)) "!Weight::NoWeight().Member()" 70 ;;
  FST_CHECK (negb (Member (Plus w1 NoWeight)))
    "!Plus(w1, Weight::NoWeight()).Member()" 71 ;;
  FST_CHECK (negb (Member (Plus NoWeight w1)))
    "!Plus(Weight::NoWeight(), w1).Member()" 72 ;;
  FST_CHECK (negb (Member (Times w1 NoWeight)))
    "!Times(w1, Weight::NoWeight()).Member()" 73 ;;
  FST_CHECK (negb (Member (Times NoWeight w1)))
    "!Times(Weight::NoWeight(), w1).Member()" 74 ;;

  FST_CHECK (ApproxEqual (Plus w1 w2) (Plus w2 w1))
    "ApproxEqual(Plus(w1, w2), Plus(w2, w1))" 77 ;;

  when (has kCommutative)
    (FST_CHECK (ApproxEqual (Times w1 w2) (Times w2 w1))
       "ApproxEqual(Times(w1, w2), Times(w2, w1))" 80) ;;

  FST_CHECK (weq (Times w1 Zero) Zero)
    "Times(w1, Weight::Zero()) == Weight::Zero()" 83 ;;
  FST_CHECK (weq (Times Zero w1) Zero)
    "Times(Weight::Zero(), w1) == Weight::Zero()" 84 ;;

  FST_CHECK (weq (Power w1 0) One) "Power(w1, 0) == Weight::One()" 87 ;;
  FST_CHECK (weq (Power w1 1) w1) "Power(w1, 1) == w1" 90 ;;
  FST_CHECK (weq (Power w1 3) (Times w1 (Times w1 w1)))
    "Power(w1, 3) == Times(w1, Times(w1, w1))" 93 ;;

  when (has kLeftSemiring)
    (FST_CHECK (ApproxEqual (Times w1 (Plus w2 w3))
                            (Plus (Times w1 w2) (Times w1 w3)))
       "ApproxEqual(Times(w1, Plus(w2, w3)), Plus(Times(w1, w2), Times(w1, w3)))"
       97) ;;
  when (has kRightSemiring)
    (FST_CHECK (ApproxEqual (Times (Plus w1 w2) w3)
                            (Plus (Times w1 w3) (Times w2 w3)))
       "ApproxEqual(Times(Plus(w1, w2), w3), Plus(Times(w1, w3), Times(w2, w3)))"
       101) ;;

  when (has kIdempotent)
    (FST_CHECK (weq (Plus w1 w1) w1) "Plus(w1, w1) == w1" 104) ;;

  when (has kPath)
    (FST_CHECK (weq (Plus w1 w2) w1 || weq (Plus w1 w2) w2)
       "Plus(w1, w2) == w1 || Plus(w1, w2) == w2" 107) ;;

  FST_CHECK (truthy (N.land Properties (N.lor kLeftSemiring kRightSemiring)))
    "Weight::Properties() & (kLeftSemiring | kRightSemiring)" 110 ;;

  when (has kCommutative)
    (FST_CHECK (truthy (N.land Properties kSemiring))
       "Weight::Properties() & kSemiring" 114).

(** [void TestDivision(Weight w1, Weight w2)] *)
Definition TestDivision (w1 w2 : W) : M E unit :=
  let p := Times w1 w2 in
  when (has kLeftSemiring)
    (let d := Divide p w1 DIVIDE_LEFT in
     when (Member d)
       (FST_CHECK (ApproxEqual p (Times w1 d))
          "ApproxEqual(p, Times(w1, d))" 123) ;;
     FST_CHECK (negb (Member (Divide w1 NoWeight DIVIDE_LEFT)))
       "!Divide(w1, Weight::NoWeight(), DIVIDE_LEFT).Member()" 124 ;;
     FST_CHECK (negb (Member (Divide NoWeight w1 DIVIDE_LEFT)))
       "!Divide(Weight::NoWeight(), w1, DIVIDE_LEFT).Member()" 125) ;;
  when (has kRightSemiring)
    (let d := Divide p w2 DIVIDE_RIGHT in
     when (Member d)
       (FST_CHECK (ApproxEqual p (Times d w2))
          "ApproxEqual(p, Times(d, w2))" 130) ;;
     FST_CHECK (negb (Member (Divide w1 NoWeight DIVIDE_RIGHT)))
       "!Divide(w1, Weight::NoWeight(), DIVIDE_RIGHT).Member()" 131 ;;
     FST_CHECK (negb (Member (Divide NoWeight w1 DIVIDE_RIGHT)))
       "!Divide(Weight::NoWeight(), w1, DIVIDE_RIGHT).Member()" 132) ;;
  when (has kCommutative)
    (let d := Divide p w1 DIVIDE_RIGHT in
     when (Member d)
       (FST_CHECK (ApproxEqual p (Times d w1))
          "ApproxEqual(p, Times(d, w1))" 137)).

(** [void TestReverse(Weight w1, Weight w2)] *)
Definition TestReverse (w1 w2 : W) : M E unit :=
  let rw1 := Reverse w1 in
  let rw2 := Reverse w2 in
  FST_CHECK (weq (rReverse rw1) w1) "rw1.Reverse() == w1" 148 ;;
  FST_CHECK (rweq (Reverse (Plus w1 w2)) (rPlus rw1 rw2))
    "Plus(w1, w2).Reverse() == Plus(rw1, rw2)" 149 ;;
  FST_CHECK (rweq (Reverse (Times w1 w2)) (rTimes rw2 rw1))
    "Times(w1, w2).Reverse() == Times(rw2, rw1)" 150.

(** [void TestEquality(Weight w1, Weight w2, Weight w3)] *)
Definition TestEquality (w1 w2 w3 : W) : M E unit :=
  FST_CHECK (weq w1 w1) "w1 == w1" 156 ;;
  FST_CHECK (Bool.eqb (weq w1 w2) (weq w2 w1)) "(w1 == w2) == (w2 == w1)" 159 ;;
  when (weq w1 w2 && weq w2 w3) (FST_CHECK (weq w1 w3) "w1 == w3" 162).

(** [void TestIO(Weight w)]; [FST_CHECK_EQ(w, v)] is [FST_CHECK((w) == (v))]. *)
Definition TestIO (w : W) : M E unit :=
  (let os := Write w in
   let v := Read os default_weight in
   FST_CHECK (weq w v) "(w) == (v)" 175) ;;
  (let os := to_text w in
   let v := from_text os One in
   FST_CHECK (ApproxEqual w v) "ApproxEqual(w, v)" 185).

(** [void TestCopy(Weight w)]: [Weight x = w;] builds [x] with the copy
    constructor; [x = Weight(w);] assigns a copy of [w] to [x];
    [x.operator=(x);] assigns [x] to itself.  (The arguments the six tests
    receive by value are taken to hold the values passed.) *)
Definition TestCopy (w : W) : M E unit :=
  let x := copy_of w in
  FST_CHECK (weq w x) "w == x" 192 ;;
  let x := assign x (copy_of w) in
  FST_CHECK (weq w x) "w == x" 195 ;;
  let x := assign x x in
  FST_CHECK (weq w x) "w == x" 198.

(** The three draws at the head of the loop body, in program order. *)
Definition draw3 (g : G) : (W * W * W) * G :=
  let (w1, g1) := weight_generator_ g in
  let (w2, g2) := weight_generator_ g1 in
  let (w3, g3) := weight_generator_ g2 in
  ((w1, w2, w3), g3).

(** One pass through the body of the [for] loop of [Test], on the weights
    [w1], [w2], [w3] drawn for it. *)
Definition Test_body (test_division : bool) (w1 w2 w3 : W) : M E unit :=
  VFST_LOG 1 (cerr_put "weight type = " ;; cerr_put Type_) ;;
  VFST_LOG 1 (cerr_put "w1 = " ;; cerr_put (to_text w1)) ;;
  VFST_LOG 1 (cerr_put "w2 = " ;; cerr_put (to_text w2)) ;;
  VFST_LOG 1 (cerr_put "w3 = " ;; cerr_put (to_text w3)) ;;
  TestSemiring w1 w2 w3 ;;
  when test_division (TestDivision w1 w2) ;;
  TestReverse w1 w2 ;;
  TestEquality w1 w2 w3 ;;
  TestIO w1 ;;
  TestCopy w1.

(** [for (int i = 0; i < iterations; ++i) { ... }] with [n] passes left. *)
Fixpoint Test_loop (n : nat) (test_division : bool) (g : G) : M E G :=
  match n with
  | O => ret g
  | S n' =>
      let '((w1, w2, w3), g') := draw3 g in
      Test_body test_division w1 w2 w3 ;;
      Test_loop n' test_division g'
  end.

(** [void Test(int iterations, bool test_division = true)]; the result is
    the state the generator member is left in. *)
Definition Test (iterations : Z) (test_division : bool) (g : G) : M E G :=
  Test_loop (Z.to_nat iterations) test_division g.

(** The triples of weights drawn in the first [n] passes of the loop. *)
Fixpoint samples (n : nat) (g : G) : list (W * W * W) :=
  match n with
  | O => []
  | S n' => let (t, g') := draw3 g in t :: samples n' g'
  end.

End Tester.

End WeightTester.

(* ================================================================= *)
(** ** fsttopsort-main.cc *)

Module TopSortMain.

Section Driver.

(** The graph held by a [MutableFstClass]. *)
Variable Fst : Type.

(** Calls that leave these sources: flag parsing, [ShowUsage], reading,
    sorting and writing a graph.  [std::set_new_handler] has no effect on
    anything observed here and is not recorded. *)
Inductive Call : Type :=
| CallSetFlags (usage : string)
| CallShowUsage
| CallRead (name : string)
| CallTopSort (fst : Fst)
| CallWrite (fst : Fst) (name : string).

(** [SET_FLAGS(usage, &argc, &argv, true)]: the arguments left once the
    flags have been removed; the values it gives the flags themselves
    ([FLAGS_v] among them) are not described.  The four library calls are
    taken to return; a run in which one of them ends the process itself is
    not described. *)
Variable SET_FLAGS : string -> list string -> list string.

(** [MutableFstClass::Read(name, convert)]: [None] is the null pointer. *)
Variable MutableFstClass_Read : string -> bool -> option Fst.

(** [TopSort(fst)]: the verdict and the graph the call leaves in place. *)
Variable TopSort : Fst -> bool * Fst.

(** [fst->Write(name)] *)
Variable MutableFstClass_Write : Fst -> string -> bool.

(** [argv[i]] for [i] below [argc]; beyond, where C has a null pointer or
    nothing, the empty string. *)
Definition arg (argv : list string) (i : nat) : string :=
  nth i argv EmptyString.

(** The text built in [usage] from [argv[0]] before the flags are parsed. *)
Definition usage_of (argv0 : list string) : string :=
  "Topologically sorts an FST." ++ endl ++ endl ++ "  Usage: "
    ++ arg argv0 0 ++ " [in.fst [out.fst]]" ++ endl.

(** [in_name]: [argv[1]] when [argc > 1] and [argv[1]] is not [-], the
    empty string otherwise. *)
Definition in_name_of (argv : list string) : string :=
  if (Z.of_nat (List.length argv) >? 1)%Z
     && negb (String.eqb (arg argv 1) "-")
  then arg argv 1 else EmptyString.

(** [out_name]: [argv[2]] when [argc > 2], the empty string otherwise. *)
Definition out_name_of (argv : list string) : string :=
  if (Z.of_nat (List.length argv) >? 2)%Z then arg argv 2 else EmptyString.

(** [int fsttopsort_main(int argc, char **argv)]; [argc] is the length of
    [argv]. *)
Definition fsttopsort_main (argv0 : list string) : M Call Z :=
  let usage := usage_of argv0 in
  call (CallSetFlags usage) ;;
  let argv := SET_FLAGS usage argv0 in
  let argc := Z.of_nat (List.length argv) in
  if (argc >? 3)%Z then
    call CallShowUsage ;;
    ret 1%Z
  else
    let in_name := in_name_of argv in
    let out_name := out_name_of argv in
    call (CallRead in_name) ;;
    match MutableFstClass_Read in_name true with
    | None => ret 1%Z
    | Some fst =>
        call (CallTopSort fst) ;;
        let (acyclic, fst') := TopSort fst in
        when (negb acyclic)
          (FST_LOG "WARNING"
             (cerr_put (arg argv 0) ;; cerr_put ": Input FST is cyclic")) ;;
        call (CallWrite fst' out_name) ;;
        ret (if MutableFstClass_Write fst' out_name then 0%Z else 1%Z)
    end.

(** Observations on the trace. *)
Definition is_topsort (c : Call) : bool :=
  match c with CallTopSort _ => true | _ => false end.

Definition is_write (c : Call) : bool :=
  match c with CallWrite _ _ => true | _ => false end.

Definition is_read (c : Call) : bool :=
  match c with CallRead _ => true | _ => false end.

Definition count (p : Call -> bool) (t : list Call) : nat :=
  List.length (filter p t).

End Driver.

Arguments CallSetFlags {Fst} usage.
Arguments CallShowUsage {Fst}.
Arguments CallRead {Fst} name.
Arguments CallTopSort {Fst} fst.
Arguments CallWrite {Fst} fst name.
Arguments is_topsort {Fst} c.
Arguments is_write {Fst} c.
Arguments is_read {Fst} c.
Arguments count {Fst} p t.

End TopSortMain.

(** [s] occurs in [t]. *)
Definition contains (t s : string) : Prop :=
  exists pre post, t = pre ++ s ++ post.

(* ================================================================= *)
(** ** Instantiations on which the tester and the driver are run *)

(** The values [weight.h] of OpenFst gives the property bits. *)
Definition openfst_masks : PropertyMasks := {|
  kLeftSemiring := 1;
  kRightSemiring := 2;
  kSemiring := 3;
  kCommutative := 4;
  kIdempotent := 8;
  kPath := 16
|}.

Module Tropical.

(** An integer-valued tropical weight: [Plus] is the minimum, [Times] the
    sum, [Zero] is infinity and [One] is 0; [TBad] is the value that is
    not a member. *)
Inductive TW : Type :=
| TFin (z : Z)
| TInf
| TBad.

Definition is_member (w : TW) : bool :=
  match w with TBad => false | _ => true end.

Definition add (a b : TW) : TW :=
  match a, b with
  | TBad, _ | _, TBad => TBad
  | TInf, w | w, TInf => w
  | TFin x, TFin y => TFin (Z.min x y)
  end.

Definition mul (a b : TW) : TW :=
  match a, b with
  | TBad, _ | _, TBad => TBad
  | TInf, _ | _, TInf => TInf
  | TFin x, TFin y => TFin (x + y)
  end.

(** Division as subtraction; dividing by infinity has no quotient. *)
Definition quotient (a b : TW) (side : DivideType) : TW :=
  match a, b with
  | TBad, _ | _, TBad => TBad
  | _, TInf => TBad
  | TInf, TFin _ => TInf
  | TFin x, TFin y => TFin (x - y)
  end.



Definition equal (a b : TW) : bool :=
  match a, b with
  | TFin x, TFin y => (x =? y)%Z
  | TInf, TInf => true
  | TBad, TBad => true
  | _, _ => false
  end.

(** Equality of finite weights up to [delta]. *)
Definition near (delta : Z) (a b : TW) : bool :=
  match a, b with
  | TFin x, TFin y => (Z.abs (x - y) <=? delta)%Z
  | TInf, TInf => true
  | _, _ => false
  end.

(** [Power] as [n] multiplications starting from [One]. *)
Definition pow_times (w : TW) (n : N) : TW :=
  N.iter n (fun r => mul r w) (TFin 0).

Definition print (w : TW) : string :=
  match w with
  | TFin z => show_int z
  | TInf => "Infinity"
  | TBad => "BadNumber"
  end.

(** Reading leaves the old value in place when the text is not a weight. *)
Definition scan (s : string) (old : TW) : TW :=
  if String.eqb s "Infinity" then TInf
  else if String.eqb s "BadNumber" then TBad
  else match NilZero.int_of_string s with
       | Some i => TFin (Z.of_int i)
       | None => old
       end.

(** The family of weight types over [TW]: everything but the values, the
    multiplication, the power and the reversal varies. *)
Definition weight_full (props : N) (sum : TW -> TW -> TW)
    (div : TW -> TW -> DivideType -> TW) (delta : Z)
    (wr : TW -> list Byte.byte) (rd : list Byte.byte -> TW -> TW)
    (pr : TW -> string) (sc : string -> TW -> TW)
    (cp : TW -> TW) (asg : TW -> TW -> TW) : Weight TW := {|
  Type_ := "tropical";
  Zero := TInf;
  One := TFin 0;
  NoWeight := TBad;
  default_weight := TInf;
  Member := is_member;
  Plus := sum;
  Times := mul;
  Divide := div;
  Power := pow_times;
  ApproxEqual := near delta;
  weq := equal;
  Properties := props;
  Write := wr; Read := rd;
  to_text := pr;
  from_text := sc;
  ReverseWeight := TW;
  Reverse := fun w => w;
  rReverse := fun w => w;
  rPlus := sum;
  rTimes := mul;
  rweq := equal;
  copy_of := cp;
  assign := asg
|}.

(** The members of the family with exact input and output and with copies
    and assignments that reproduce the value: the declared properties, the
    addition, the division and the tolerance of [ApproxEqual] vary. *)
Definition weight_with (props : N) (sum : TW -> TW -> TW)
    (div : TW -> TW -> DivideType -> TW) (delta : Z) : Weight TW :=
  weight_full props sum div delta
    (fun w => list_byte_of_string (print w))
    (fun bs old => scan (string_of_list_byte bs) old)
    print scan
    (fun w => w) (fun _ w => w).

(** The tropical semiring with all its properties declared
    (31 = Semiring | Commutative | Idempotent | Path). *)
Definition tropical : Weight TW := weight_with 31 add quotient 0.



(** An addition that is off by one when its right operand is [Zero], under
    an [ApproxEqual] that tolerates a difference of one. *)
Definition plus_off_by_one (a b : TW) : TW :=
  match a, b with
  | TFin x, TInf => TFin (x + 1)
  | _, _ => add a b
  end.

Definition inexact : Weight TW := weight_with 31 plus_off_by_one quotient 1.



(** Neither [kLeftSemiring] nor [kRightSemiring] declared. *)
Definition undeclared : Weight TW := weight_with 24 add quotient 0.

(** A generator that hands out the elements of [ws] in turn, again and
    again; its state is the number of calls made so far. *)
Definition cycle (ws : list TW) (i : nat) : TW * nat :=
  (nth (i mod List.length ws) ws TInf, S i).

Definition some_weights : list TW := [TFin 3; TFin 5; TInf; TFin (-2); TFin 0].


(** [Commutative] declared with [LeftSemiring] alone
    (5 = LeftSemiring | Commutative). *)
Definition comm_left : Weight TW := weight_with 5 add quotient 0.






End Tropical.

(** A process that has written nothing yet, at verbosity [v]. *)
Definition fresh (E : Type) (v : Z) : World E := mkWorld EmptyString v [].

Module Toy.

(** A driver environment for runs at concrete inputs: a graph is its list
    of arcs, a file name stands for its content. *)
Definition graph : Type := list (nat * nat).

Definition set_flags (usage : string) (argv : list string) : list string :=
  filter (fun a => negb (String.prefix "--" a)) argv.

Definition read (name : string) (convert : bool) : option graph :=
  if String.eqb name "cycle.fst" then Some [(0, 1); (1, 2); (2, 0)]%nat
  else if String.eqb name "chain.fst" then Some [(0, 2); (2, 1)]%nat
  else None.

(** Sorting answers for the two graphs [read] knows: the cycle is left as
    it is, the chain is renumbered. *)
Definition topsort (g : graph) : bool * graph :=
  match g with
  | [(0, 2); (2, 1)]%nat => (true, [(0, 1); (1, 2)]%nat)
  | _ => (false, g)
  end.

Definition write (g : graph) (name : string) : bool :=
  negb (String.eqb name "/readonly/out.fst").

End Toy.

(* ================================================================= *)
(** ** What the properties are stated with *)

Section Predicates.

Context {E : Type}.

(** [m] only appends to standard error and returns. *)
Definition writes_only (m : M E unit) : Prop :=
  forall w, exists s,
    m w = (Ret tt, mkWorld (cerr w ++ s) (FLAGS_v w) (trace w)).

(** The process ended with [exit(1)] and the last thing on standard error
    is the report of a failed check of file [file]. *)
Definition died_on_check (file : string) (w w' : World E) (code : Z) : Prop :=
  code = 1%Z /\
  exists before expr line,
    cerr w' = cerr w ++ before ++ check_failed_message expr file line.

(** [m] leaves in no other way than by returning or by a failed check. *)
Definition fails_hard {A} (file : string) (m : M E A) : Prop :=
  forall w,
    match m w with
    | (Ret _, w') => exists s, cerr w' = cerr w ++ s
    | (Exit code, w') => died_on_check file w w' code
    end.

End Predicates.

Section Laws.

Context {masks : PropertyMasks}.
Context {W : Type} {weight : Weight W}.

Import WeightTester.

(** The laws [TestSemiring] states with [operator==]. *)
Definition exact_laws (w1 w2 : W) : Prop :=
  weq (Plus w1 Zero) w1 = true /\
  weq (Plus Zero w1) w1 = true /\
  weq (Times w1 One) w1 = true /\
  weq (Times One w1) w1 = true /\
  weq (Times w1 Zero) Zero = true /\
  weq (Times Zero w1) Zero = true /\
  weq (Power w1 0) One = true /\
  weq (Power w1 1) w1 = true /\
  weq (Power w1 3) (Times w1 (Times w1 w1)) = true /\
  (has kIdempotent = true -> weq (Plus w1 w1) w1 = true) /\
  (has kPath = true ->
   weq (Plus w1 w2) w1 = true \/ weq (Plus w1 w2) w2 = true).

(** The laws [TestSemiring] states with [ApproxEqual]. *)
Definition approximate_laws (w1 w2 w3 : W) : Prop :=
  ApproxEqual (Plus w1 (Plus w2 w3)) (Plus (Plus w1 w2) w3) = true /\
  ApproxEqual (Times w1 (Times w2 w3)) (Times (Times w1 w2) w3) = true /\
  ApproxEqual (Plus w1 w2) (Plus w2 w1) = true /\
  (has kCommutative = true ->
   ApproxEqual (Times w1 w2) (Times w2 w1) = true) /\
  (has kLeftSemiring = true ->
   ApproxEqual (Times w1 (Plus w2 w3))
               (Plus (Times w1 w2) (Times w1 w3)) = true) /\
  (has kRightSemiring = true ->
   ApproxEqual (Times (Plus w1 w2) w3)
               (Plus (Times w1 w3) (Times w2 w3)) = true).

(** Closure of [Plus] and [Times] on the two first samples. *)
Definition closure_laws (w1 w2 : W) : Prop :=
  Member (Plus w1 w2) = true /\ Member (Times w1 w2) = true.

(** [NoWeight] is not a member and [Plus] and [Times] with it are not. *)
Definition noweight_laws (w : W) : Prop :=
  Member NoWeight = false /\
  Member (Plus w NoWeight) = false /\
  Member (Plus NoWeight w) = false /\
  Member (Times w NoWeight) = false /\
  Member (Times NoWeight w) = false.

(** [Divide] on side [side] with [NoWeight] as divisor or as dividend is
    not a member. *)
Definition noweight_divide_laws (w : W) (side : DivideType) : Prop :=
  Member (Divide w NoWeight side) = false /\
  Member (Divide NoWeight w side) = false.

(** The two checks on the declared properties. *)
Definition mask_laws : Prop :=
  (has kLeftSemiring = true \/ has kRightSemiring = true) /\
  (has kCommutative = true -> has kSemiring = true).

(** Everything [TestSemiring] checks. *)
Definition semiring_laws (w1 w2 w3 : W) : Prop :=
  closure_laws w1 w2 /\
  approximate_laws w1 w2 w3 /\
  exact_laws w1 w2 /\
  noweight_laws w1 /\
  mask_laws.


(** What the division test checks when [Commutative] is declared: the
    right quotient of [Times w1 w2] by [w1], when a member, multiplied back
    by [w1] on the right gives the product up to [ApproxEqual]. *)
Definition commutative_divide_law (w1 w2 : W) : Prop :=
  let p := Times w1 w2 in
  let d := Divide p w1 DIVIDE_RIGHT in
  Member d = true -> ApproxEqual p (Times d w1) = true.

(** What the division test checks of left division when [LeftSemiring]
    is declared, and of right division when [RightSemiring] is. *)
Definition left_divide_law (w1 w2 : W) : Prop :=
  let p := Times w1 w2 in
  let d := Divide p w1 DIVIDE_LEFT in
  Member d = true -> ApproxEqual p (Times w1 d) = true.

Definition right_divide_law (w1 w2 : W) : Prop :=
  let p := Times w1 w2 in
  let d := Divide p w2 DIVIDE_RIGHT in
  Member d = true -> ApproxEqual p (Times d w2) = true.

(** Everything [TestDivision] checks. *)
Definition division_laws (w1 w2 : W) : Prop :=
  (has kLeftSemiring = true ->
   left_divide_law w1 w2 /\ noweight_divide_laws w1 DIVIDE_LEFT) /\
  (has kRightSemiring = true ->
   right_divide_law w1 w2 /\ noweight_divide_laws w1 DIVIDE_RIGHT) /\
  (has kCommutative = true -> commutative_divide_law w1 w2).


(** The two round trips of [TestIO]. *)
Definition io_laws (w : W) : Prop :=
  weq w (Read (Write w) default_weight) = true /\
  ApproxEqual w (from_text (to_text w) One) = true.

(** The three checks on [Power]. *)
Definition power_laws (w : W) : Prop :=
  weq (Power w 0) One = true /\
  weq (Power w 1) w = true /\
  weq (Power w 3) (Times w (Times w w)) = true.

(** What a pass of the loop of [Test] that came to its end has checked of
    the semiring, of division and of input and output, on the triple of
    weights drawn for it. *)
Definition round_laws (test_division : bool) (t : W * W * W) : Prop :=
  let '(w1, w2, w3) := t in
  semiring_laws w1 w2 w3 /\
  (test_division = true -> division_laws w1 w2) /\
  io_laws w1.

End Laws.

(* ================================================================= *)
(** ** Further predicates: output, draws, the remaining laws *)

(** The process [w] after [s] has been appended to standard error. *)
Definition logged {E} (w : World E) (s : string) : World E :=
  mkWorld (cerr w ++ s) (FLAGS_v w) (trace w).

(** What a [VFST_LOG(1)] statement that would write [s] writes at
    verbosity [v]. *)
Definition verbose (v : Z) (s : string) : string :=
  if (1 <=? v)%Z then s else EmptyString.

(** The line [FST_LOG(INFO) << s] leaves on standard error. *)
Definition info_line (s : string) : string := "INFO: " ++ s ++ endl.

(** [m] does nothing but check: from any process it either returns and
    leaves the process as it was, or exits with 1 after the report of one
    failed check of file [file]. *)
Definition checks_only {E} (file : string) (m : M E unit) : Prop :=
  forall w,
    m w = (Ret tt, w) \/
    exists expr line,
      m w = (Exit 1, logged w (check_failed_message expr file line)).

(** The state of a generator after [k] calls. *)
Fixpoint draws {G W : Type} (gen : G -> W * G) (k : nat) (g : G) : G :=
  match k with
  | O => g
  | S k' => draws gen k' (snd (gen g))
  end.

Section MoreLaws.

Context {masks : PropertyMasks}.
Context {W : Type} {weight : Weight W}.

(** What [TestReverse] checks. *)
Definition reverse_laws (w1 w2 : W) : Prop :=
  weq (rReverse (Reverse w1)) w1 = true /\
  rweq (Reverse (Plus w1 w2)) (rPlus (Reverse w1) (Reverse w2)) = true /\
  rweq (Reverse (Times w1 w2)) (rTimes (Reverse w2) (Reverse w1)) = true.

(** What [TestEquality] checks. *)
Definition equality_laws (w1 w2 w3 : W) : Prop :=
  weq w1 w1 = true /\
  weq w1 w2 = weq w2 w1 /\
  (weq w1 w2 = true -> weq w2 w3 = true -> weq w1 w3 = true).

(** The copy constructor and the assignment reproduce the value they are
    given, as the tester takes for granted when it hands its weights to
    the tests by value. *)
Definition faithful_copies : Prop :=
  (forall w : W, copy_of w = w) /\ (forall x w : W, assign x w = w).

(** Every bit of [mask] is declared: [(Properties() & mask) == mask]. *)
Definition declares_all (mask : N) : bool :=
  (N.land Properties mask =? mask)%N.

(** Everything one pass of the loop of [Test] checks on its triple, apart
    from the copies of [TestCopy]. *)
Definition all_laws (test_division : bool) (t : W * W * W) : Prop :=
  let '(w1, w2, w3) := t in
  semiring_laws w1 w2 w3 /\
  (test_division = true -> division_laws w1 w2) /\
  reverse_laws w1 w2 /\
  equality_laws w1 w2 w3 /\
  io_laws w1.

(** The four lines the [VFST_LOG(1)] statements of a pass write. *)
Definition round_log (t : W * W * W) : string :=
  let '(w1, w2, w3) := t in
  info_line ("weight type = " ++ Type_) ++
  info_line ("w1 = " ++ to_text w1) ++
  info_line ("w2 = " ++ to_text w2) ++
  info_line ("w3 = " ++ to_text w3).

(** The lines of a sequence of passes. *)
Fixpoint run_log (ts : list (W * W * W)) : string :=
  match ts with
  | [] => EmptyString
  | t :: ts' => round_log t ++ run_log ts'
  end.

End MoreLaws.

(* ================================================================= *)
(** ** Strings *)

Lemma append_assoc (a b c : string) : (a ++ b) ++ c = a ++ (b ++ c).
Proof.
  induction a as [|ch a IH]; simpl; [reflexivity|].
  now rewrite IH.
Qed.

Lemma append_nil_r (a : string) : a ++ EmptyString = a.
Proof.
  induction a as [|ch a IH]; simpl; [reflexivity|].
  now rewrite IH.
Qed.

Lemma contains_append (pre s post : string) : contains (pre ++ s ++ post) s.
Proof. now exists pre, post. Qed.

(* ================================================================= *)
(** ** The monad and log.h *)

Section LogFacts.

Context {E : Type}.

Lemma bind_Ret_inv {A B} (m : M E A) (k : A -> M E B) w b w' :
  bind m k w = (Ret b, w') ->
  exists a w1, m w = (Ret a, w1) /\ k a w1 = (Ret b, w').
Proof.
  unfold bind. destruct (m w) as [[a|c] w1]; intros H.
  - now exists a, w1.
  - discriminate.
Qed.

Lemma bind_Ret {A B} (m : M E A) (k : A -> M E B) w a w1 :
  m w = (Ret a, w1) -> bind m k w = k a w1.
Proof. unfold bind. now intros ->. Qed.

Lemma bind_Exit {A B} (m : M E A) (k : A -> M E B) w c w1 :
  m w = (Exit c, w1) -> bind m k w = (Exit c, w1).
Proof. unfold bind. now intros ->. Qed.

Lemma bind_assoc {A B C} (m : M E A) (f : A -> M E B) (k : B -> M E C) w :
  bind (bind m f) k w = bind m (fun a => bind (f a) k) w.
Proof. unfold bind. now destruct (m w) as [[a|c] w1]. Qed.

Lemma bind_ret_l {A B} (a : A) (k : A -> M E B) w :
  bind (ret a) k w = k a w.
Proof. reflexivity. Qed.

(** A check that holds does nothing. *)
Lemma FstCheck_true expr file line (w : World E) :
  FstCheck true expr file line w = (Ret tt, w).
Proof. reflexivity. Qed.

(** A check that fails writes its report and ends the process. *)
Lemma FstCheck_false expr file line (w : World E) :
  FstCheck false expr file line w =
  (Exit 1, mkWorld (cerr w ++ check_failed_message expr file line)
                   (FLAGS_v w) (trace w)).
Proof.
  unfold FstCheck, FST_LOG, LogMessage_new, LogMessage_delete, when, bind,
    cerr_put, ret, exit, check_failed_message; simpl.
  do 2 f_equal.
  repeat rewrite append_assoc. simpl. reflexivity.
Qed.

Lemma FstCheck_Ret_inv x expr file line (w w' : World E) u :
  FstCheck x expr file line w = (Ret u, w') -> x = true /\ w' = w.
Proof.
  destruct x.
  - rewrite FstCheck_true. intros H; inversion H; auto.
  - rewrite FstCheck_false. discriminate.
Qed.

(** Writing, and sequences of writes. *)
Lemma writes_only_put s : writes_only (E := E) (cerr_put s).
Proof. intros w. now exists s. Qed.

Lemma writes_only_seq (m k : M E unit) :
  writes_only m -> writes_only k -> writes_only (m ;; k).
Proof.
  intros Hm Hk w. destruct (Hm w) as [s Hs].
  destruct (Hk (mkWorld (cerr w ++ s) (FLAGS_v w) (trace w))) as [t Ht].
  exists (s ++ t). unfold bind. rewrite Hs, Ht. simpl.
  now rewrite append_assoc.
Qed.

(** A message of a type other than FATAL is written and the program goes
    on. *)
Lemma FST_LOG_not_fatal type (body : M E unit) s w :
  String.eqb type "FATAL" = false ->
  body (mkWorld (cerr w ++ type ++ ": ") (FLAGS_v w) (trace w))
    = (Ret tt, mkWorld ((cerr w ++ type ++ ": ") ++ s) (FLAGS_v w) (trace w)) ->
  FST_LOG type body w =
  (Ret tt, mkWorld (cerr w ++ type ++ ": " ++ s ++ endl) (FLAGS_v w) (trace w)).
Proof.
  intros Hty Hbody.
  unfold FST_LOG, LogMessage_new, LogMessage_delete, bind, cerr_put, ret.
  simpl. rewrite Hty.
  replace ((cerr w ++ type) ++ ": ") with (cerr w ++ type ++ ": ")
    by now rewrite append_assoc.
  rewrite Hbody. simpl.
  do 2 f_equal. repeat rewrite append_assoc. reflexivity.
Qed.

Lemma writes_only_FST_LOG type (body : M E unit) :
  String.eqb type "FATAL" = false ->
  writes_only body -> writes_only (FST_LOG type body).
Proof.
  intros Hty Hb w.
  destruct (Hb (mkWorld (cerr w ++ type ++ ": ") (FLAGS_v w) (trace w)))
    as [s Hs].
  exists (type ++ ": " ++ s ++ endl).
  now apply FST_LOG_not_fatal.
Qed.

Lemma writes_only_VFST_LOG level (body : M E unit) :
  writes_only body -> writes_only (VFST_LOG level body).
Proof.
  intros Hb w. unfold VFST_LOG, get_FLAGS_v, bind, when.
  destruct (level <=? FLAGS_v w)%Z.
  - now apply writes_only_FST_LOG.
  - exists EmptyString. unfold ret. rewrite append_nil_r. now destruct w.
Qed.

(** Building blocks of [fails_hard]. *)
Lemma fails_hard_ret {A} file (a : A) : fails_hard (E := E) file (ret a).
Proof. intros w. exists EmptyString. now rewrite append_nil_r. Qed.

Lemma fails_hard_writes file (m : M E unit) :
  writes_only m -> fails_hard file m.
Proof. intros H w. destruct (H w) as [s ->]. now exists s. Qed.

Lemma fails_hard_bind {A B} file (m : M E A) (k : A -> M E B) :
  fails_hard file m -> (forall a, fails_hard file (k a)) ->
  fails_hard file (bind m k).
Proof.
  intros Hm Hk w. unfold bind.
  specialize (Hm w). destruct (m w) as [[a|c] w1].
  - destruct Hm as [s Hs]. specialize (Hk a w1).
    destruct (k a w1) as [[b|c] w2].
    + destruct Hk as [t Ht]. exists (s ++ t).
      now rewrite Ht, Hs, append_assoc.
    + destruct Hk as [Hc (before & expr & line & Hcerr)]. split; [exact Hc|].
      exists (s ++ before), expr, line.
      now rewrite Hcerr, Hs, !append_assoc.
  - exact Hm.
Qed.

Lemma fails_hard_when file c (m : M E unit) :
  fails_hard file m -> fails_hard file (when c m).
Proof. destruct c; simpl; [auto | intros _; apply fails_hard_ret]. Qed.

Lemma fails_hard_FstCheck file x expr line :
  fails_hard (E := E) file (FstCheck x expr file line).
Proof.
  intros w. destruct x.
  - rewrite FstCheck_true. exists EmptyString. now rewrite append_nil_r.
  - rewrite FstCheck_false. split; [reflexivity|].
    exists EmptyString, expr, line. reflexivity.
Qed.

End LogFacts.

(* ================================================================= *)
(** ** weight-tester.h: what a returning test has checked *)

Lemma truthy_land_lor (p a b : N) :
  truthy (N.land p (N.lor a b)) = truthy (N.land p a) || truthy (N.land p b).
Proof.
  unfold truthy. rewrite N.land_lor_distr_r.
  destruct (N.eqb_spec (N.land p a) 0) as [Ha|Ha];
    destruct (N.eqb_spec (N.land p b) 0) as [Hb|Hb];
    destruct (N.eqb_spec (N.lor (N.land p a) (N.land p b)) 0) as [Hab|Hab];
    simpl; try reflexivity; exfalso.
  - apply Hab. now rewrite Ha, Hb.
  - apply N.lor_eq_0_iff in Hab. tauto.
  - apply N.lor_eq_0_iff in Hab. tauto.
  - apply N.lor_eq_0_iff in Hab. tauto.
Qed.

Section TesterFacts.

Context {E : Type}.
Context {masks : PropertyMasks}.
Context {W : Type} {weight : Weight W}.
Context {G : Type}.
Variable weight_generator_ : G -> W * G.
Variable FILE_ : string.

Import WeightTester.

Lemma FST_CHECK_seq_inv {A} x expr line (k : unit -> M E A) w a w' :
  bind (FST_CHECK FILE_ x expr line) k w = (Ret a, w') ->
  x = true /\ k tt w = (Ret a, w').
Proof.
  intros H. apply bind_Ret_inv in H. destruct H as ([] & w1 & Hc & Hk).
  apply FstCheck_Ret_inv in Hc. destruct Hc as [-> ->]. auto.
Qed.

Lemma when_FST_CHECK_inv c x expr line (w w' : World E) u :
  when c (FST_CHECK FILE_ x expr line) w = (Ret u, w') ->
  (c = true -> x = true) /\ w' = w.
Proof.
  destruct c; simpl; intros H.
  - apply FstCheck_Ret_inv in H. tauto.
  - inversion H. split; [discriminate | reflexivity].
Qed.

Lemma when_FST_CHECK_seq_inv {A} c x expr line (k : unit -> M E A) w a w' :
  bind (when c (FST_CHECK FILE_ x expr line)) k w = (Ret a, w') ->
  (c = true -> x = true) /\ k tt w = (Ret a, w').
Proof.
  intros H. apply bind_Ret_inv in H. destruct H as ([] & w1 & Hc & Hk).
  apply when_FST_CHECK_inv in Hc. destruct Hc as [Hx ->]. auto.
Qed.

(** One statement of a test body that returned. *)
Ltac check_step H :=
  let Hx := fresh "Hchk" in
  first [ rewrite bind_assoc in H
        | rewrite bind_ret_l in H
        | apply FST_CHECK_seq_inv in H; destruct H as [Hx H];
          cbv beta in H; try rewrite negb_true_iff in Hx
        | apply when_FST_CHECK_seq_inv in H; destruct H as [Hx H];
          cbv beta in H; try rewrite negb_true_iff in Hx ].

(** The last statement of a test body that returned. *)
Ltac check_last H :=
  let Hx := fresh "Hchk" in
  first [ apply FstCheck_Ret_inv in H
        | apply when_FST_CHECK_inv in H ];
  destruct H as [Hx H]; try rewrite negb_true_iff in Hx.

(** [TestSemiring] returns exactly when all its laws hold, and then it has
    written nothing. *)
Lemma TestSemiring_Ret_iff w1 w2 w3 (w w' : World E) :
  TestSemiring FILE_ w1 w2 w3 w = (Ret tt, w') <->
  semiring_laws w1 w2 w3 /\ w' = w.
Proof.
  split.
  - intros H. unfold TestSemiring in H.
    repeat check_step H.
    apply when_FST_CHECK_inv in H. destruct H as [Hsemi ->].
    repeat match goal with
    | Hx : truthy (N.land _ (N.lor _ _)) = true |- _ =>
        rewrite truthy_land_lor in Hx
    | Hx : (_ || _) = true |- _ => rewrite orb_true_iff in Hx
    | Hx : _ -> (_ || _) = true |- _ => rewrite orb_true_iff in Hx
    end.
    unfold semiring_laws, closure_laws, approximate_laws, exact_laws,
      noweight_laws, mask_laws.
    repeat split; assumption.
  - intros [(Hclo & Happ & Hex & Hno & Hmask) ->].
    destruct Hclo as [c1 c2].
    destruct Happ as (a1 & a2 & a3 & a4 & a5 & a6).
    destruct Hex as (e1 & e2 & e3 & e4 & e5 & e6 & e7 & e8 & e9 & e10 & e11).
    destruct Hno as (n1 & n2 & n3 & n4 & n5).
    destruct Hmask as [m1 m2].
    assert (m1' : truthy (N.land Properties
                            (N.lor kLeftSemiring kRightSemiring)) = true).
    { rewrite truthy_land_lor, orb_true_iff. exact m1. }
    assert (m2' : has kCommutative = true ->
                  truthy (N.land Properties kSemiring) = true) by exact m2.
    rewrite <- orb_true_iff in e11.
    unfold TestSemiring, FST_CHECK.
    rewrite c1, c2, a1, a2, a3, e1, e2, e3, e4, e5, e6, e7, e8, e9,
      n1, n2, n3, n4, n5, m1'.
    destruct (has kCommutative) eqn:Hc; [rewrite (a4 eq_refl), (m2' eq_refl)|];
    (destruct (has kLeftSemiring) eqn:Hl; [rewrite (a5 eq_refl)|]);
    (destruct (has kRightSemiring) eqn:Hr; [rewrite (a6 eq_refl)|]);
    (destruct (has kIdempotent) eqn:Hi; [rewrite (e10 eq_refl)|]);
    (destruct (has kPath) eqn:Hp; [rewrite (e11 eq_refl)|]);
    reflexivity.
Qed.

Lemma TestDivision_Ret_inv w1 w2 (w w' : World E) :
  TestDivision FILE_ w1 w2 w = (Ret tt, w') -> division_laws w1 w2 /\ w' = w.
Proof.
  intros H. unfold TestDivision in H. cbv zeta in H.
  unfold division_laws, left_divide_law, right_divide_law,
    commutative_divide_law, noweight_divide_laws. cbv zeta.
  destruct (has kLeftSemiring); destruct (has kRightSemiring);
    destruct (has kCommutative); cbn [when] in H;
    repeat check_step H;
    first [ check_last H
          | (injection H as H; symmetry in H) ];
    (split; [|exact H]); repeat split; intros; first [assumption | discriminate | auto].
Qed.

Lemma TestIO_Ret_inv w1 (w w' : World E) :
  TestIO FILE_ w1 w = (Ret tt, w') -> io_laws w1 /\ w' = w.
Proof.
  intros H. unfold TestIO in H. cbv zeta in H.
  check_step H. check_last H.
  unfold io_laws. auto.
Qed.

(** The checks of a round that came to its end. *)
Lemma Test_body_Ret_inv td w1 w2 w3 (w w' : World E) :
  Test_body FILE_ td w1 w2 w3 w = (Ret tt, w') ->
  round_laws td (w1, w2, w3).
Proof.
  intros H. unfold Test_body in H.
  do 4 (apply bind_Ret_inv in H; destruct H as (_ & ? & _ & H)).
  apply bind_Ret_inv in H. destruct H as ([] & wa & Hsemi & H).
  apply TestSemiring_Ret_iff in Hsemi. destruct Hsemi as [Hsemi ->].
  apply bind_Ret_inv in H. destruct H as ([] & wb & Hdiv & H).
  do 2 (apply bind_Ret_inv in H; destruct H as (_ & ? & _ & H)).
  apply bind_Ret_inv in H. destruct H as ([] & wc & Hio & H).
  apply TestIO_Ret_inv in Hio. destruct Hio as [Hio _].
  unfold round_laws. split; [exact Hsemi|]. split; [|exact Hio].
  intros ->. cbn [when] in Hdiv.
  now apply TestDivision_Ret_inv in Hdiv.
Qed.

Lemma Test_loop_Ret_Forall n td g (w w' : World E) g' :
  Test_loop weight_generator_ FILE_ n td g w = (Ret g', w') ->
  Forall (round_laws td) (samples weight_generator_ n g).
Proof.
  revert g w. induction n as [|n IH]; intros g w H; simpl.
  - constructor.
  - simpl in H. destruct (draw3 weight_generator_ g) as [[[w1 w2] w3] g1].
    apply bind_Ret_inv in H. destruct H as ([] & wa & Hbody & H).
    constructor.
    + now apply Test_body_Ret_inv in Hbody.
    + now apply IH in H.
Qed.

(** [Test] leaves in no other way than by returning or by a failed check. *)
Ltac hard :=
  cbv zeta;
  repeat first
    [ apply fails_hard_FstCheck
    | apply fails_hard_ret
    | apply fails_hard_when
    | apply fails_hard_bind; [|intros ?] ].

Lemma fails_hard_TestSemiring w1 w2 w3 :
  fails_hard (E := E) FILE_ (TestSemiring FILE_ w1 w2 w3).
Proof. unfold TestSemiring, FST_CHECK. hard. Qed.

Lemma fails_hard_TestDivision w1 w2 :
  fails_hard (E := E) FILE_ (TestDivision FILE_ w1 w2).
Proof. unfold TestDivision, FST_CHECK. hard. Qed.

Lemma fails_hard_TestReverse w1 w2 :
  fails_hard (E := E) FILE_ (TestReverse FILE_ w1 w2).
Proof. unfold TestReverse, FST_CHECK. hard. Qed.

Lemma fails_hard_TestEquality w1 w2 w3 :
  fails_hard (E := E) FILE_ (TestEquality FILE_ w1 w2 w3).
Proof. unfold TestEquality, FST_CHECK. hard. Qed.

Lemma fails_hard_TestIO w1 :
  fails_hard (E := E) FILE_ (TestIO FILE_ w1).
Proof. unfold TestIO, FST_CHECK. hard. Qed.

Lemma fails_hard_TestCopy w1 :
  fails_hard (E := E) FILE_ (TestCopy FILE_ w1).
Proof. unfold TestCopy, FST_CHECK. hard. Qed.

Lemma fails_hard_Test_body td w1 w2 w3 :
  fails_hard (E := E) FILE_ (Test_body FILE_ td w1 w2 w3).
Proof.
  unfold Test_body.
  repeat first
    [ apply fails_hard_TestSemiring
    | apply fails_hard_TestDivision
    | apply fails_hard_TestReverse
    | apply fails_hard_TestEquality
    | apply fails_hard_TestIO
    | apply fails_hard_TestCopy
    | apply fails_hard_writes, writes_only_VFST_LOG, writes_only_seq;
      apply writes_only_put
    | apply fails_hard_when
    | apply fails_hard_bind; [|intros ?] ].
Qed.

Lemma fails_hard_Test_loop n td g :
  fails_hard (E := E) FILE_ (Test_loop weight_generator_ FILE_ n td g).
Proof.
  revert g. induction n as [|n IH]; intros g; simpl.
  - apply fails_hard_ret.
  - destruct (draw3 weight_generator_ g) as [[[w1 w2] w3] g1].
    apply fails_hard_bind; [apply fails_hard_Test_body | intros _; apply IH].
Qed.

(** A run of [Test] either returns or ends the process with code 1. *)
Lemma Test_returns_or_exits_1 iterations td g (w : World E) :
  (exists g' w',
      Test weight_generator_ FILE_ iterations td g w = (Ret g', w')) \/
  fst (Test weight_generator_ FILE_ iterations td g w) = Exit 1.
Proof.
  unfold Test.
  pose proof (fails_hard_Test_loop (Z.to_nat iterations) td g w) as H.
  destruct (Test_loop weight_generator_ FILE_ (Z.to_nat iterations) td g w)
    as [[g'|c] w'].
  - left. now exists g', w'.
  - right. destruct H as [-> _]. reflexivity.
Qed.



End TesterFacts.

(* ================================================================= *)
(** ** Properties of the weight tester *)

Section TesterClaims.

Context {E : Type}.
Context {masks : PropertyMasks}.
Context {W : Type} {weight : Weight W}.
Context {G : Type}.
Variable weight_generator_ : G -> W * G.
Variable FILE_ : string.

Import WeightTester.

(** C2.  A violated check of the tester is a hard failure.  [FST_CHECK] on
    a false condition writes, on standard error, the line
    [FATAL: Check failed: "<expr>" file: <file> line: <line>] and ends
    the process with exit code 1, whatever the expression and the line and
    whatever code [k] follows the check: nothing after it runs.  And a run
    of [Test] that does not return has ended in exactly that way: exit code
    1, the report of a failed check last on standard error.  There is no
    other way out of the tester. *)
Theorem violated_check_is_fatal :
  (forall (A : Type) (k : unit -> M E A) expr line (w : World E),
      bind (FST_CHECK FILE_ false expr line) k w =
      (Exit 1, mkWorld (cerr w ++ check_failed_message expr FILE_ line)
                       (FLAGS_v w) (trace w)))
  /\
  (forall iterations test_division g (w w' : World E) code,
      Test weight_generator_ FILE_ iterations test_division g w
        = (Exit code, w') ->
      died_on_check FILE_ w w' code).
Proof.
  split.
  - intros A k expr line w. apply bind_Exit, FstCheck_false.
  - intros iterations td g w w' code H.
    pose proof (fails_hard_Test_loop weight_generator_ FILE_
                  (Z.to_nat iterations) td g w) as Hh.
    unfold Test in H. rewrite H in Hh. exact Hh.
Qed.





(** X15.  A run of [Test] with at least one round checks that one side
    is declared (line 110): if it returns, [LeftSemiring] or
    [RightSemiring] is declared, in the tester's sense that
    [Properties() & mask] is not zero; a weight type that declares neither
    ends the run with exit code 1, whatever else holds of it. *)
Theorem left_or_right_semiring_required :
  forall iterations test_division g (w : World E),
    (0 < iterations)%Z ->
    (forall g' w',
        Test weight_generator_ FILE_ iterations test_division g w
          = (Ret g', w') ->
        has kLeftSemiring = true \/ has kRightSemiring = true)
    /\
    (has kLeftSemiring = false -> has kRightSemiring = false ->
     fst (Test weight_generator_ FILE_ iterations test_division g w) = Exit 1).
Proof.
  intros iterations td g w Hpos.
  assert (Hmask : forall g' w',
             Test weight_generator_ FILE_ iterations td g w = (Ret g', w') ->
             mask_laws).
  { intros g' w' H. apply Test_loop_Ret_Forall in H.
    destruct (Z.to_nat iterations) as [|n] eqn:Hn; [lia|].
    simpl in H. destruct (draw3 weight_generator_ g) as [[[w1 w2] w3] g1].
    inversion H as [|? ? Hhd _]; subst. apply Hhd. }
  split.
  - intros g' w' H. apply (Hmask _ _ H).
  - intros Hl Hr.
    destruct (Test_returns_or_exits_1 weight_generator_ FILE_
                iterations td g w) as [(g' & w' & H)|H]; [|exact H].
    destruct (Hmask _ _ H) as [[Hl'|Hr'] _]; congruence.
Qed.


End TesterClaims.

(* ================================================================= *)
(** ** Properties of the driver *)

Section DriverClaims.

Import TopSortMain.

Variable Fst : Type.
Variable SET_FLAGS : string -> list string -> list string.
Variable MutableFstClass_Read : string -> bool -> option Fst.
Variable TopSort : Fst -> bool * Fst.
Variable MutableFstClass_Write : Fst -> string -> bool.

Local Abbreviation main :=
  (fsttopsort_main Fst SET_FLAGS MutableFstClass_Read TopSort
     MutableFstClass_Write).

Lemma count_app (p : Call Fst -> bool) (t u : list (Call Fst)) :
  count p (t ++ u) = (count p t + count p u)%nat.
Proof. unfold count. now rewrite filter_app, length_app. Qed.

(** The warning of the driver, by [FST_LOG(WARNING)]: written, and the
    program goes on. *)
Lemma cyclic_warning prog (w : World (Call Fst)) :
  FST_LOG "WARNING" (cerr_put prog ;; cerr_put ": Input FST is cyclic") w =
  (Ret tt,
   mkWorld (cerr w ++ "WARNING: " ++ prog ++ ": Input FST is cyclic" ++ endl)
           (FLAGS_v w) (trace w)).
Proof.
  rewrite (FST_LOG_not_fatal "WARNING" _ (prog ++ ": Input FST is cyclic"));
    [|reflexivity|].
  - do 2 f_equal. now rewrite !append_assoc.
  - unfold bind, cerr_put. simpl. do 2 f_equal. now rewrite !append_assoc.
Qed.

(** C1.  When at most three arguments are left by the flags and the read
    gives a graph [g], the driver calls [TopSort] exactly once, on [g];
    it then writes the graph [TopSort] left, to the output name; it returns
    0 if that write succeeds and 1 if it fails, whatever the verdict; and
    standard error receives nothing if the verdict is acyclic and the line
    [WARNING: <argv[0]>: Input FST is cyclic] if it is cyclic. *)
Theorem sort_once_warn_and_write :
  forall argv0 (w : World (Call Fst)) g,
    let argv := SET_FLAGS (usage_of argv0) argv0 in
    let acyclic := fst (TopSort g) in
    let sorted := snd (TopSort g) in
    let out := main argv0 w in
    (Z.of_nat (List.length argv) <= 3)%Z ->
    MutableFstClass_Read (in_name_of argv) true = Some g ->
    fst out =
      Ret (if MutableFstClass_Write sorted (out_name_of argv)
           then 0%Z else 1%Z) /\
    trace (snd out) =
      (trace w ++ [CallSetFlags (usage_of argv0);
                   CallRead (in_name_of argv);
                   CallTopSort g;
                   CallWrite sorted (out_name_of argv)])%list /\
    count is_topsort (trace (snd out)) = S (count is_topsort (trace w)) /\
    cerr (snd out) =
      (if acyclic then cerr w
       else cerr w ++ "WARNING: " ++ arg argv 0
              ++ ": Input FST is cyclic" ++ endl) /\
    (acyclic = false -> contains (cerr (snd out)) "Input FST is cyclic").
Proof.
  intros argv0 w g argv acyclic sorted out Hargc Hread.
  assert (Hout : out =
    (Ret (if MutableFstClass_Write sorted (out_name_of argv)
          then 0%Z else 1%Z),
     mkWorld (if acyclic then cerr w
              else cerr w ++ "WARNING: " ++ arg argv 0
                     ++ ": Input FST is cyclic" ++ endl)
             (FLAGS_v w)
             (trace w ++ [CallSetFlags (usage_of argv0);
                          CallRead (in_name_of argv);
                          CallTopSort g;
                          CallWrite sorted (out_name_of argv)]))).
  { subst out. unfold fsttopsort_main.
    fold argv. unfold bind at 1. unfold call at 1. cbv iota beta.
    destruct (Z.gtb_spec (Z.of_nat (List.length argv)) 3) as [Hgt|_]; [lia|].
    unfold bind at 1. unfold call at 1. cbv iota beta.
    rewrite Hread.
    unfold bind at 1. unfold call at 1. cbv iota beta.
    subst acyclic sorted. destruct (TopSort g) as [a g']. simpl fst. simpl snd.
    unfold bind at 1. destruct a; cbn [negb when].
    - unfold ret at 1. cbv iota beta.
      unfold bind, call, ret. simpl.
      now rewrite <- !app_assoc.
    - rewrite cyclic_warning.
      unfold bind, call, ret. simpl.
      now rewrite <- !app_assoc. }
  rewrite Hout. cbn [fst snd cerr trace].
  split; [reflexivity|]. split; [reflexivity|]. split.
  - rewrite count_app. unfold count. simpl. lia.
  - split; [reflexivity|].
    intros ->.
    exists (cerr w ++ "WARNING: " ++ arg argv 0 ++ ": "), endl.
    now rewrite !append_assoc.
Qed.

(** C8.  With more than two arguments after the program name left by the
    flags, the driver calls [ShowUsage] and returns 1; it reads no graph
    (nor sorts or writes one) and writes nothing on standard error
    itself. *)
Theorem too_many_arguments_is_usage_error :
  forall argv0 (w : World (Call Fst)),
    let argv := SET_FLAGS (usage_of argv0) argv0 in
    (2 < List.length (tl argv))%nat ->
    main argv0 w =
      (Ret 1%Z,
       mkWorld (cerr w) (FLAGS_v w)
               (trace w ++ [CallSetFlags (usage_of argv0); CallShowUsage]))
    /\ count is_read (trace (snd (main argv0 w))) = count is_read (trace w).
Proof.
  intros argv0 w argv Hargs.
  assert (Hlen : (3 < Z.of_nat (List.length argv))%Z).
  { destruct argv as [|a rest]; simpl in *; lia. }
  assert (Hout : main argv0 w =
      (Ret 1%Z,
       mkWorld (cerr w) (FLAGS_v w)
               (trace w ++ [CallSetFlags (usage_of argv0); CallShowUsage]))).
  { unfold fsttopsort_main. fold argv.
    unfold bind at 1. unfold call at 1. cbv iota beta.
    destruct (Z.gtb_spec (Z.of_nat (List.length argv)) 3) as [_|Hle]; [|lia].
    unfold bind, call, ret. simpl. now rewrite <- app_assoc. }
  split; [exact Hout|].
  rewrite Hout. cbn [snd trace].
  rewrite count_app. unfold count. simpl. lia.
Qed.

(** C9.  When the read gives no graph, the driver returns 1, and neither
    [TopSort] nor [Write] is called. *)
Theorem read_failure_exits_1 :
  forall argv0 (w : World (Call Fst)),
    let argv := SET_FLAGS (usage_of argv0) argv0 in
    let out := main argv0 w in
    MutableFstClass_Read (in_name_of argv) true = None ->
    fst out = Ret 1%Z /\
    count is_topsort (trace (snd out)) = count is_topsort (trace w) /\
    count is_write (trace (snd out)) = count is_write (trace w) /\
    ((Z.of_nat (List.length argv) <= 3)%Z ->
     trace (snd out) =
       (trace w ++ [CallSetFlags (usage_of argv0);
                    CallRead (in_name_of argv)])%list).
Proof.
  intros argv0 w argv out Hread.
  subst out. unfold fsttopsort_main. fold argv.
  unfold bind at 1. unfold call at 1. cbv iota beta.
  destruct (Z.gtb_spec (Z.of_nat (List.length argv)) 3) as [Hgt|Hle].
  - unfold bind, call, ret. simpl.
    rewrite !count_app. unfold count. simpl.
    repeat split; try lia.
  - unfold bind at 1. unfold call at 1. cbv iota beta.
    rewrite Hread. unfold ret. simpl.
    rewrite !count_app. unfold count. simpl.
    repeat split; try lia.
    intros _. now rewrite <- app_assoc.
Qed.

End DriverClaims.

(* ================================================================= *)
(** ** The properties at concrete inputs *)

Section Runs.

Import WeightTester Tropical TopSortMain.

Local Existing Instance openfst_masks.

(** A run of the tester on weight type [wt] under the OpenFst masks, with
    the generator cycling through [ws], from a process that has written
    nothing. *)
Local Abbreviation run wt ws n td :=
  (Test (E := unit) (masks := openfst_masks) (weight := wt) (cycle ws)
        "weight-tester.h" n td 0%nat (fresh unit 0)).

Local Abbreviation drawn ws n := (samples (cycle ws) n 0%nat).

(** The undeclared tropical type dies on the check of line 110. *)
Lemma violated_check_is_fatal_witness :
  fst (run undeclared some_weights 5%Z true) = Exit 1 /\
  died_on_check "weight-tester.h" (fresh unit 0)
    (snd (run undeclared some_weights 5%Z true)) 1.
Proof.
  split; [vm_compute; reflexivity|].
  apply (proj2 (violated_check_is_fatal (E := unit) (masks := openfst_masks)
                  (weight := undeclared) (cycle some_weights)
                  "weight-tester.h") 5%Z true 0%nat).
  vm_compute. reflexivity.
Defined.








(** The tropical type passes and declares a side; the undeclared type
    dies. *)
Lemma left_or_right_semiring_required_witness :
  (has (weight := tropical) kLeftSemiring = true \/
   has (weight := tropical) kRightSemiring = true) /\
  fst (run undeclared some_weights 5%Z true) = Exit 1.
Proof.
  split.
  - apply (proj1 (left_or_right_semiring_required (E := unit)
                    (masks := openfst_masks) (weight := tropical)
                    (cycle some_weights) "weight-tester.h"
                    5%Z true 0%nat (fresh unit 0) eq_refl)
             15%nat (fresh unit 0)).
    vm_compute. reflexivity.
  - apply (proj2 (left_or_right_semiring_required (E := unit)
                    (masks := openfst_masks) (weight := undeclared)
                    (cycle some_weights) "weight-tester.h"
                    5%Z true 0%nat (fresh unit 0) eq_refl));
      reflexivity.
Defined.

(** C7.  The check of line 114 does not do what the comment above it
    says.  The type [comm_left] declares [Commutative] and, of the two
    sides, [LeftSemiring] alone, so it is not marked as a semiring:
    [Properties() & kSemiring] is not [kSemiring].  But that value is not
    zero either, which is all line 114 tests: the check holds, and five
    rounds of [Test], division included, return. *)
Theorem commutative_with_one_side_passes :
  has (weight := comm_left) kCommutative = true /\
  has (weight := comm_left) kLeftSemiring = true /\
  has (weight := comm_left) kRightSemiring = false /\
  declares_all (weight := comm_left) kSemiring = false /\
  truthy (N.land (Properties (Weight := comm_left)) kSemiring) = true /\
  run comm_left some_weights 5%Z true = (Ret 15%nat, fresh unit 0).
Proof.
  do 5 (split; [reflexivity|]).
  vm_compute. reflexivity.
Qed.


(** The driver in the toy environment. *)
Local Abbreviation toy_main :=
  (fsttopsort_main Toy.graph Toy.set_flags Toy.read Toy.topsort Toy.write).

(** Scenario 1 of the specification: the three-state cycle is sorted once,
    the warning is written, the graph is written, the exit code is 0. *)
Lemma sort_once_warn_and_write_witness :
  let out :=
    toy_main ["fsttopsort"; "cycle.fst"; "out.fst"] (fresh _ 0) in
  fst out = Ret 0%Z /\
  count is_topsort (trace (snd out)) = 1%nat /\
  In (CallWrite [(0, 1); (1, 2); (2, 0)]%nat "out.fst") (trace (snd out)) /\
  contains (cerr (snd out)) "Input FST is cyclic".
Proof.
  destruct (sort_once_warn_and_write Toy.graph Toy.set_flags Toy.read
              Toy.topsort Toy.write
              ["fsttopsort"; "cycle.fst"; "out.fst"] (fresh _ 0)
              [(0, 1); (1, 2); (2, 0)]%nat)
    as (Hcode & Htrace & Hcount & Hcerr & Hwarn).
  - simpl. lia.
  - reflexivity.
  - cbv zeta. split; [exact Hcode|]. split; [exact Hcount|].
    split; [|exact (Hwarn eq_refl)].
    rewrite Htrace. simpl. auto.
Defined.

(** Scenario 5 of the specification: three arguments after the program
    name. *)
Lemma too_many_arguments_is_usage_error_witness :
  fst (toy_main ["fsttopsort"; "a.fst"; "b.fst"; "c.fst"] (fresh _ 0))
    = Ret 1%Z /\
  count is_read
    (trace (snd (toy_main ["fsttopsort"; "a.fst"; "b.fst"; "c.fst"]
                   (fresh _ 0)))) = 0%nat.
Proof.
  destruct (too_many_arguments_is_usage_error Toy.graph Toy.set_flags
              Toy.read Toy.topsort Toy.write
              ["fsttopsort"; "a.fst"; "b.fst"; "c.fst"] (fresh _ 0))
    as [Hout Hread].
  - simpl. lia.
  - split; [now rewrite Hout | exact Hread].
Defined.

(** Scenario 6 of the specification: a file that cannot be read. *)
Lemma read_failure_exits_1_witness :
  let out :=
    toy_main ["fsttopsort"; "--v=1"; "missing.fst"; "out.fst"] (fresh _ 0) in
  fst out = Ret 1%Z /\
  count is_topsort (trace (snd out)) = 0%nat /\
  count is_write (trace (snd out)) = 0%nat.
Proof.
  destruct (read_failure_exits_1 Toy.graph Toy.set_flags Toy.read
              Toy.topsort Toy.write
              ["fsttopsort"; "--v=1"; "missing.fst"; "out.fst"] (fresh _ 0))
    as (Hcode & Hsort & Hwrite & _).
  - reflexivity.
  - cbv zeta. auto.
Defined.

End Runs.

(* ================================================================= *)
(** ** More of log.h *)

Section MoreLogFacts.

Context {E : Type}.

Lemma logged_nil (w : World E) : logged w EmptyString = w.
Proof. unfold logged. rewrite append_nil_r. now destruct w. Qed.

Lemma logged_logged (w : World E) a b :
  logged (logged w a) b = logged w (a ++ b).
Proof. unfold logged. simpl. now rewrite append_assoc. Qed.

Lemma verbose_append v a b : verbose v a ++ verbose v b = verbose v (a ++ b).
Proof. unfold verbose. now destruct (1 <=? v)%Z. Qed.

(** A run of [FST_LOG] whose insertions write [s]. *)
Lemma FST_LOG_run type (body : M E unit) s (w : World E) :
  body (logged w (type ++ ": "))
    = (Ret tt, logged (logged w (type ++ ": ")) s) ->
  FST_LOG type body w =
  (if String.eqb type "FATAL" then Exit 1 else Ret tt,
   logged w (type ++ ": " ++ s ++ endl)).
Proof.
  intros Hs.
  unfold FST_LOG, LogMessage_new, LogMessage_delete.
  unfold bind at 1. unfold bind at 1. unfold cerr_put at 1.
  unfold bind at 1. unfold cerr_put at 1. unfold ret at 1.
  cbn [cerr FLAGS_v trace].
  replace (mkWorld ((cerr w ++ type) ++ ": ") (FLAGS_v w) (trace w))
    with (logged w (type ++ ": "))
    by (unfold logged; now rewrite append_assoc).
  unfold bind at 1. rewrite Hs. cbn [fatal_].
  unfold bind, cerr_put, exit, ret, logged. cbn [cerr FLAGS_v trace].
  destruct (String.eqb type "FATAL"); do 2 f_equal;
    now rewrite !append_assoc.
Qed.

(** X1.  [FST_LOG(type) << ...] ends the process exactly when [type] is
    the five letters FATAL, and then with code 1; in both cases, before
    anything else happens, standard error has received the type, a colon
    and a blank, what the insertions wrote, and a line end. *)
Theorem FST_LOG_exits_iff_FATAL :
  forall type (body : M E unit),
    writes_only body ->
    forall w, exists s,
      body (logged w (type ++ ": "))
        = (Ret tt, logged (logged w (type ++ ": ")) s) /\
      snd (FST_LOG type body w) = logged w (type ++ ": " ++ s ++ endl) /\
      (fst (FST_LOG type body w) = Exit 1 <-> type = "FATAL") /\
      (fst (FST_LOG type body w) = Ret tt <-> type <> "FATAL").
Proof.
  intros type body Hb w.
  destruct (Hb (logged w (type ++ ": "))) as [s Hs].
  exists s. split; [exact Hs|].
  rewrite (FST_LOG_run type body s w Hs). cbn [fst snd].
  split; [reflexivity|].
  destruct (String.eqb_spec type "FATAL") as [Heq|Hne]; split; split;
    intros H; try congruence; try discriminate; try reflexivity.
Qed.

(** X2.  [VFST_LOG(level) << ...] writes nothing and changes nothing when
    [level] is above [FLAGS_v]; otherwise (also when they are equal) it
    writes one INFO line; and it never ends the process. *)
Theorem VFST_LOG_gated_by_FLAGS_v :
  forall level (body : M E unit),
    writes_only body ->
    forall w, exists s,
      body (logged w "INFO: ") = (Ret tt, logged (logged w "INFO: ") s) /\
      VFST_LOG level body w =
        (Ret tt,
         if (level <=? FLAGS_v w)%Z then logged w (info_line s) else w).
Proof.
  intros level body Hb w.
  destruct (Hb (logged w "INFO: ")) as [s Hs].
  exists s. split; [exact Hs|].
  unfold VFST_LOG, get_FLAGS_v. unfold bind at 1.
  destruct (level <=? FLAGS_v w)%Z; cbn [when].
  - now rewrite (FST_LOG_run "INFO" body s w Hs).
  - reflexivity.
Qed.

(** The four log statements of the tester. *)
Lemma VFST_LOG_1_puts a b (w : World E) :
  VFST_LOG 1 (cerr_put a ;; cerr_put b) w =
  (Ret tt, logged w (verbose (FLAGS_v w) (info_line (a ++ b)))).
Proof.
  unfold VFST_LOG, get_FLAGS_v. unfold bind at 1. unfold verbose.
  destruct (1 <=? FLAGS_v w)%Z; cbn [when].
  - rewrite (FST_LOG_not_fatal "INFO" _ (a ++ b)); [|reflexivity|].
    + reflexivity.
    + unfold bind, cerr_put. simpl. now rewrite !append_assoc.
  - unfold ret. now rewrite logged_nil.
Qed.

(** Building blocks of [checks_only]. *)
Lemma checks_only_ret file : checks_only (E := E) file (ret tt).
Proof. intros w. now left. Qed.

Lemma checks_only_FstCheck file x expr line :
  checks_only (E := E) file (FstCheck x expr file line).
Proof.
  intros w. destruct x.
  - left. apply FstCheck_true.
  - right. exists expr, line. apply FstCheck_false.
Qed.

Lemma checks_only_bind file (m : M E unit) (k : unit -> M E unit) :
  checks_only file m -> (forall u, checks_only file (k u)) ->
  checks_only file (bind m k).
Proof.
  intros Hm Hk w. unfold bind.
  destruct (Hm w) as [->|(expr & line & ->)].
  - apply Hk.
  - right. now exists expr, line.
Qed.

Lemma checks_only_when file c (m : M E unit) :
  checks_only file m -> checks_only file (when c m).
Proof. destruct c; simpl; [auto | intros _; apply checks_only_ret]. Qed.

End MoreLogFacts.

(* ================================================================= *)
(** ** More of weight-tester.h *)

Section MoreTesterFacts.

Context {E : Type}.
Context {masks : PropertyMasks}.
Context {W : Type} {weight : Weight W}.
Context {G : Type}.
Variable weight_generator_ : G -> W * G.
Variable FILE_ : string.

Import WeightTester.

(** One statement, and the last statement, of a test that returned. *)
Ltac returned_step H :=
  let Hx := fresh "Hlaw" in
  first [ rewrite bind_assoc in H
        | rewrite bind_ret_l in H
        | apply FST_CHECK_seq_inv in H; destruct H as [Hx H];
          cbv beta in H; try rewrite negb_true_iff in Hx
        | apply when_FST_CHECK_seq_inv in H; destruct H as [Hx H];
          cbv beta in H; try rewrite negb_true_iff in Hx ].

Ltac returned_last H :=
  let Hx := fresh "Hlaw" in
  first [ apply FstCheck_Ret_inv in H
        | apply when_FST_CHECK_inv in H ];
  destruct H as [Hx H]; try rewrite negb_true_iff in Hx.

Lemma TestReverse_Ret_inv w1 w2 (w w' : World E) :
  TestReverse FILE_ w1 w2 w = (Ret tt, w') -> reverse_laws w1 w2 /\ w' = w.
Proof.
  intros H. unfold TestReverse in H. cbv zeta in H.
  do 2 returned_step H. returned_last H.
  unfold reverse_laws. auto.
Qed.

Lemma TestReverse_Ret_of_laws w1 w2 (w : World E) :
  reverse_laws w1 w2 -> TestReverse FILE_ w1 w2 w = (Ret tt, w).
Proof.
  intros (H1 & H2 & H3).
  unfold TestReverse, FST_CHECK. cbv zeta.
  rewrite H1, H2, H3. reflexivity.
Qed.

Lemma TestEquality_Ret_inv w1 w2 w3 (w w' : World E) :
  TestEquality FILE_ w1 w2 w3 w = (Ret tt, w') ->
  equality_laws w1 w2 w3 /\ w' = w.
Proof.
  intros H. unfold TestEquality in H.
  do 2 returned_step H. returned_last H.
  unfold equality_laws. split; [|exact H].
  split; [assumption|]. split.
  - now apply eqb_prop.
  - intros Ha Hb. apply Hlaw1. now rewrite Ha, Hb.
Qed.

Lemma TestEquality_Ret_of_laws w1 w2 w3 (w : World E) :
  equality_laws w1 w2 w3 -> TestEquality FILE_ w1 w2 w3 w = (Ret tt, w).
Proof.
  intros (Hr & Hs & Ht).
  unfold TestEquality, FST_CHECK.
  rewrite Hs in Ht. rewrite Hr, Hs, eqb_reflx.
  destruct (weq w2 w1); destruct (weq w2 w3); cbn [andb when];
    try reflexivity.
  rewrite (Ht eq_refl eq_refl). reflexivity.
Qed.

Lemma TestDivision_Ret_of_laws w1 w2 (w : World E) :
  division_laws w1 w2 -> TestDivision FILE_ w1 w2 w = (Ret tt, w).
Proof.
  intros (Hl & Hr & Hc).
  unfold TestDivision, FST_CHECK. cbv zeta.
  unfold left_divide_law, right_divide_law, commutative_divide_law,
    noweight_divide_laws in *. cbv zeta in *.
  destruct (has kLeftSemiring);
    [destruct (Hl eq_refl) as (Hl1 & Hl2 & Hl3); rewrite Hl2, Hl3;
     destruct (Member (Divide (Times w1 w2) w1 DIVIDE_LEFT));
     [rewrite (Hl1 eq_refl)|] |];
  (destruct (has kRightSemiring);
    [destruct (Hr eq_refl) as (Hr1 & Hr2 & Hr3); rewrite Hr2, Hr3;
     destruct (Member (Divide (Times w1 w2) w2 DIVIDE_RIGHT));
     [rewrite (Hr1 eq_refl)|] |]);
  (destruct (has kCommutative);
    [specialize (Hc eq_refl);
     destruct (Member (Divide (Times w1 w2) w1 DIVIDE_RIGHT));
     [rewrite (Hc eq_refl)|] |]);
  reflexivity.
Qed.

(** X3.  [TestReverse] returns exactly when, under [operator==], reversing
    [w1] twice gives [w1], the reverse of [Plus(w1, w2)] is [Plus] of the
    reverses, and the reverse of [Times(w1, w2)] is [Times] of the reverses
    in the other order; and then it has written nothing. *)
Theorem TestReverse_returns_iff :
  forall w1 w2 (w w' : World E),
    TestReverse FILE_ w1 w2 w = (Ret tt, w') <->
    reverse_laws w1 w2 /\ w' = w.
Proof.
  intros w1 w2 w w'. split.
  - apply TestReverse_Ret_inv.
  - intros [Hlaws ->]. now apply TestReverse_Ret_of_laws.
Qed.

(** X4.  [TestEquality] returns exactly when [w1 == w1] holds, [w1 == w2]
    and [w2 == w1] have the same truth value, and [w1 == w3] holds if both
    [w1 == w2] and [w2 == w3] do; and then it has written nothing.
    Reflexivity is checked on [w1] alone. *)
Theorem TestEquality_returns_iff :
  forall w1 w2 w3 (w w' : World E),
    TestEquality FILE_ w1 w2 w3 w = (Ret tt, w') <->
    equality_laws w1 w2 w3 /\ w' = w.
Proof.
  intros w1 w2 w3 w w'. split.
  - apply TestEquality_Ret_inv.
  - intros [Hlaws ->]. now apply TestEquality_Ret_of_laws.
Qed.

(** X5.  [TestDivision] returns exactly when: if [LeftSemiring] is
    declared, the left quotient of [Times(w1, w2)] by [w1], when a member,
    recombines and left division with [NoWeight] is not a member; the same
    on the right, by [w2], if [RightSemiring] is declared; and the right
    quotient by [w1], when a member, recombines if [Commutative] is
    declared.  A quotient that is not a member passes unexamined, and a
    type that declares none of the three properties passes whatever its
    [Divide]. *)
Theorem TestDivision_returns_iff :
  forall w1 w2 (w w' : World E),
    TestDivision FILE_ w1 w2 w = (Ret tt, w') <->
    division_laws w1 w2 /\ w' = w.
Proof.
  intros w1 w2 w w'. split.
  - apply TestDivision_Ret_inv.
  - intros [Hlaws ->]. now apply TestDivision_Ret_of_laws.
Qed.

Lemma TestIO_Ret_iff w1 (w w' : World E) :
  TestIO FILE_ w1 w = (Ret tt, w') <-> io_laws w1 /\ w' = w.
Proof.
  split; [apply TestIO_Ret_inv|].
  intros [[H1 H2] ->]. unfold TestIO, FST_CHECK. cbv zeta.
  rewrite H1, H2. reflexivity.
Qed.

(** With copies and assignments that reproduce the value, [TestCopy]
    checks [w == w] three times. *)
Lemma TestCopy_Ret_iff w1 (w w' : World E) :
  faithful_copies ->
  (TestCopy FILE_ w1 w = (Ret tt, w') <-> weq w1 w1 = true /\ w' = w).
Proof.
  intros [Hcopy Hassign]. unfold TestCopy. cbv zeta.
  rewrite !Hcopy, !Hassign. split.
  - intros H. do 2 returned_step H. returned_last H. auto.
  - intros [H ->]. unfold FST_CHECK. rewrite H. reflexivity.
Qed.

(** The six tests only check. *)
Ltac only_checks :=
  cbv zeta;
  repeat first
    [ apply checks_only_FstCheck
    | apply checks_only_ret
    | apply checks_only_when
    | apply checks_only_bind; [|intros ?] ].

Lemma checks_only_TestSemiring w1 w2 w3 :
  checks_only (E := E) FILE_ (TestSemiring FILE_ w1 w2 w3).
Proof. unfold TestSemiring, FST_CHECK. only_checks. Qed.

Lemma checks_only_TestDivision w1 w2 :
  checks_only (E := E) FILE_ (TestDivision FILE_ w1 w2).
Proof. unfold TestDivision, FST_CHECK. only_checks. Qed.

Lemma checks_only_TestReverse w1 w2 :
  checks_only (E := E) FILE_ (TestReverse FILE_ w1 w2).
Proof. unfold TestReverse, FST_CHECK. only_checks. Qed.

Lemma checks_only_TestEquality w1 w2 w3 :
  checks_only (E := E) FILE_ (TestEquality FILE_ w1 w2 w3).
Proof. unfold TestEquality, FST_CHECK. only_checks. Qed.

Lemma checks_only_TestIO w1 :
  checks_only (E := E) FILE_ (TestIO FILE_ w1).
Proof. unfold TestIO, FST_CHECK. only_checks. Qed.

Lemma checks_only_TestCopy w1 :
  checks_only (E := E) FILE_ (TestCopy FILE_ w1).
Proof. unfold TestCopy, FST_CHECK. only_checks. Qed.

(** The calls of the six tests in the loop body. *)
Local Abbreviation tests td w1 w2 w3 :=
  (TestSemiring FILE_ w1 w2 w3 ;;
   when td (TestDivision FILE_ w1 w2) ;;
   TestReverse FILE_ w1 w2 ;;
   TestEquality FILE_ w1 w2 w3 ;;
   TestIO FILE_ w1 ;;
   TestCopy FILE_ w1).

Lemma checks_only_tests td w1 w2 w3 :
  checks_only (E := E) FILE_ (tests td w1 w2 w3).
Proof.
  repeat first
    [ apply checks_only_TestSemiring
    | apply checks_only_TestDivision
    | apply checks_only_TestReverse
    | apply checks_only_TestEquality
    | apply checks_only_TestIO
    | apply checks_only_TestCopy
    | apply checks_only_when
    | apply checks_only_bind; [|intros ?] ].
Qed.

Lemma tests_Ret_iff td w1 w2 w3 (w w' : World E) :
  faithful_copies ->
  (tests td w1 w2 w3 w = (Ret tt, w') <->
   all_laws td (w1, w2, w3) /\ w' = w).
Proof.
  intros Hcopy. unfold all_laws. split.
  - intros H.
    apply bind_Ret_inv in H. destruct H as ([] & wa & Hsemi & H).
    apply TestSemiring_Ret_iff in Hsemi. destruct Hsemi as [Hsemi ->].
    apply bind_Ret_inv in H. destruct H as ([] & wb & Hdiv & H).
    assert (Hdiv' : (td = true -> division_laws w1 w2) /\ wb = w).
    { destruct td; cbn [when] in Hdiv.
      - apply TestDivision_Ret_inv in Hdiv. tauto.
      - inversion Hdiv. split; [discriminate | reflexivity]. }
    destruct Hdiv' as [Hdiv' ->].
    apply bind_Ret_inv in H. destruct H as ([] & wc & Hrev & H).
    apply TestReverse_Ret_inv in Hrev. destruct Hrev as [Hrev ->].
    apply bind_Ret_inv in H. destruct H as ([] & wd & Heq & H).
    apply TestEquality_Ret_inv in Heq. destruct Heq as [Heq ->].
    apply bind_Ret_inv in H. destruct H as ([] & we & Hio & H).
    apply TestIO_Ret_iff in Hio. destruct Hio as [Hio ->].
    apply (TestCopy_Ret_iff _ _ _ Hcopy) in H. destruct H as [_ ->].
    auto 10.
  - intros [(Hsemi & Hdiv & Hrev & Heq & Hio) ->].
    erewrite bind_Ret by (apply TestSemiring_Ret_iff; eauto).
    erewrite bind_Ret
      by (destruct td; cbn [when];
          [apply TestDivision_Ret_of_laws; eauto | reflexivity]).
    erewrite bind_Ret by (apply TestReverse_Ret_of_laws; eauto).
    erewrite bind_Ret by (apply TestEquality_Ret_of_laws; eauto).
    erewrite bind_Ret by (apply TestIO_Ret_iff; eauto).
    apply (TestCopy_Ret_iff _ _ _ Hcopy). split; [apply Heq | reflexivity].
Qed.

(** One pass: its four lines are written (at verbosity 1 or more), then
    the tests run. *)
Lemma Test_body_logs td w1 w2 w3 (w : World E) :
  Test_body FILE_ td w1 w2 w3 w =
  tests td w1 w2 w3
    (logged w (verbose (FLAGS_v w) (round_log (w1, w2, w3)))).
Proof.
  unfold Test_body.
  do 4 (erewrite bind_Ret by apply VFST_LOG_1_puts).
  rewrite !logged_logged. cbn [FLAGS_v logged].
  rewrite !verbose_append. reflexivity.
Qed.

(** One pass either returns after its four lines, or ends the process
    after them and one report. *)
Lemma Test_body_run td w1 w2 w3 (w : World E) :
  let lines := verbose (FLAGS_v w) (round_log (w1, w2, w3)) in
  Test_body FILE_ td w1 w2 w3 w = (Ret tt, logged w lines) \/
  exists expr line,
    Test_body FILE_ td w1 w2 w3 w =
    (Exit 1, logged w (lines ++ check_failed_message expr FILE_ line)).
Proof.
  intros lines. rewrite Test_body_logs. fold lines.
  destruct (checks_only_tests td w1 w2 w3 (logged w lines))
    as [Hret|(expr & line & Hexit)].
  - now left.
  - right. exists expr, line. rewrite Hexit. now rewrite logged_logged.
Qed.

(** With faithful copies it returns exactly when all laws hold. *)
Lemma Test_body_cases td w1 w2 w3 (w : World E) :
  faithful_copies ->
  let lines := verbose (FLAGS_v w) (round_log (w1, w2, w3)) in
  (all_laws td (w1, w2, w3) /\
   Test_body FILE_ td w1 w2 w3 w = (Ret tt, logged w lines)) \/
  (~ all_laws td (w1, w2, w3) /\
   exists expr line,
     Test_body FILE_ td w1 w2 w3 w =
     (Exit 1, logged w (lines ++ check_failed_message expr FILE_ line))).
Proof.
  intros Hcopy lines.
  destruct (Test_body_run td w1 w2 w3 w) as [Hret|(expr & line & Hexit)];
    fold lines in Hret || fold lines in Hexit.
  - left. split; [|exact Hret].
    rewrite Test_body_logs in Hret.
    apply (tests_Ret_iff _ _ _ _ _ _ Hcopy) in Hret. apply Hret.
  - right. split; [|now exists expr, line].
    intros Hlaws.
    assert (Hret : Test_body FILE_ td w1 w2 w3 w = (Ret tt, logged w lines)).
    { rewrite Test_body_logs. apply (tests_Ret_iff _ _ _ _ _ _ Hcopy). auto. }
    rewrite Hret in Hexit. discriminate.
Qed.

Lemma draws_add (k j : nat) (g : G) :
  draws weight_generator_ (k + j) g
  = draws weight_generator_ j (draws weight_generator_ k g).
Proof.
  revert g. induction k as [|k IH]; intros g; simpl; [reflexivity|].
  apply IH.
Qed.

Lemma draw3_draws (g : G) :
  snd (draw3 weight_generator_ g) = draws weight_generator_ 3 g.
Proof.
  unfold draw3. simpl.
  destruct (weight_generator_ g) as [w1 g1]. simpl.
  destruct (weight_generator_ g1) as [w2 g2]. simpl.
  destruct (weight_generator_ g2) as [w3 g3]. reflexivity.
Qed.

(** The loop either returns, with the generator three draws further per
    pass and the lines of every pass written, or ends the process in some
    pass, after the lines of the passes up to that one and one report. *)
Lemma Test_loop_run n td g (w : World E) :
  let ts := samples weight_generator_ n g in
  Test_loop weight_generator_ FILE_ n td g w =
  (Ret (draws weight_generator_ (3 * n) g),
   logged w (verbose (FLAGS_v w) (run_log ts))) \/
  (exists k expr line,
      (k < n)%nat /\
      Test_loop weight_generator_ FILE_ n td g w =
      (Exit 1,
       logged w (verbose (FLAGS_v w) (run_log (firstn (S k) ts))
                 ++ check_failed_message expr FILE_ line))).
Proof.
  revert g w. induction n as [|n IH]; intros g w ts; subst ts.
  - left. simpl. unfold ret, verbose.
    destruct (1 <=? FLAGS_v w)%Z; now rewrite logged_nil.
  - replace (3 * S n)%nat with (3 + 3 * n)%nat by lia.
    rewrite draws_add, <- draw3_draws.
    cbn [Test_loop samples].
    destruct (draw3 weight_generator_ g) as [[[w1 w2] w3] g1]. cbn [snd].
    destruct (Test_body_run td w1 w2 w3 w)
      as [Hret|(expr & line & Hexit)].
    + rewrite (bind_Ret _ _ _ _ _ Hret).
      destruct (IH g1 (logged w (verbose (FLAGS_v w)
                                   (round_log (w1, w2, w3)))))
        as [Hrun|(k & expr & line & Hk & Hrun)].
      * left. rewrite Hrun. cbn [FLAGS_v logged run_log].
        rewrite logged_logged, verbose_append. reflexivity.
      * right. exists (S k), expr, line. split; [lia|].
        rewrite Hrun. cbn [FLAGS_v logged].
        rewrite logged_logged, <- append_assoc, verbose_append.
        reflexivity.
    + right. exists 0%nat, expr, line. split; [lia|].
      rewrite (bind_Exit _ _ _ _ _ Hexit).
      cbn [firstn run_log]. now rewrite append_nil_r.
Qed.

(** With faithful copies: either every pass satisfies its laws and the
    loop returns, or there is a first pass that does not, and the loop
    ends there. *)
Lemma Test_loop_cases n td g (w : World E) :
  faithful_copies ->
  let ts := samples weight_generator_ n g in
  (Forall (all_laws td) ts /\
   Test_loop weight_generator_ FILE_ n td g w =
   (Ret (draws weight_generator_ (3 * n) g),
    logged w (verbose (FLAGS_v w) (run_log ts)))) \/
  (exists k t expr line,
      nth_error ts k = Some t /\
      Forall (all_laws td) (firstn k ts) /\
      ~ all_laws td t /\
      Test_loop weight_generator_ FILE_ n td g w =
      (Exit 1,
       logged w (verbose (FLAGS_v w) (run_log (firstn (S k) ts))
                 ++ check_failed_message expr FILE_ line))).
Proof.
  intros Hcopy. revert g w. induction n as [|n IH]; intros g w ts; subst ts.
  - left. split; [constructor|]. simpl. unfold ret, verbose.
    destruct (1 <=? FLAGS_v w)%Z; now rewrite logged_nil.
  - replace (3 * S n)%nat with (3 + 3 * n)%nat by lia.
    rewrite draws_add, <- draw3_draws.
    cbn [Test_loop samples].
    destruct (draw3 weight_generator_ g) as [[[w1 w2] w3] g1]. cbn [snd].
    destruct (Test_body_cases td w1 w2 w3 w Hcopy)
      as [[Hlaws Hret]|[Hno Hexit]].
    + rewrite (bind_Ret _ _ _ _ _ Hret).
      destruct (IH g1 (logged w (verbose (FLAGS_v w)
                                   (round_log (w1, w2, w3)))))
        as [[Hall Hrun]|(k & t & expr & line & Hnth & Hpre & Hbad & Hrun)].
      * left. split; [now constructor|].
        rewrite Hrun. cbn [FLAGS_v logged run_log].
        rewrite logged_logged, verbose_append. reflexivity.
      * right. exists (S k), t, expr, line.
        split; [exact Hnth|]. split; [cbn [firstn]; now constructor|].
        split; [exact Hbad|].
        rewrite Hrun. cbn [FLAGS_v logged].
        rewrite logged_logged, <- append_assoc, verbose_append.
        reflexivity.
    + right. destruct Hexit as (expr & line & Hexit).
      exists 0%nat, (w1, w2, w3), expr, line.
      split; [reflexivity|]. split; [constructor|]. split; [exact Hno|].
      rewrite (bind_Exit _ _ _ _ _ Hexit).
      cbn [firstn run_log]. now rewrite append_nil_r.
Qed.

(** X6.  For a weight type whose copy constructor and assignment
    reproduce the value they are given, the tester raises no false alarm
    and misses nothing it checks: a run of [Test] returns exactly when, in
    every round, the triple drawn satisfies all the laws of [TestSemiring],
    of [TestDivision] (when division is tested), of [TestReverse], of
    [TestEquality] and of [TestIO].  ([TestCopy] then checks [w1 == w1],
    which [TestEquality] has checked.) *)
Theorem Test_returns_iff_all_laws :
  forall iterations test_division g (w : World E),
    faithful_copies ->
    ((exists g' w',
         Test weight_generator_ FILE_ iterations test_division g w
           = (Ret g', w')) <->
     Forall (all_laws test_division)
            (samples weight_generator_ (Z.to_nat iterations) g)).
Proof.
  intros iterations td g w Hcopy. unfold Test.
  destruct (Test_loop_cases (Z.to_nat iterations) td g w Hcopy)
    as [[Hall Hrun]|(k & t & expr & line & Hnth & _ & Hbad & Hrun)].
  - split; [auto|]. intros _. eauto.
  - split.
    + intros (g' & w' & H). rewrite H in Hrun. discriminate.
    + intros Hall. exfalso. apply Hbad.
      rewrite Forall_forall in Hall. apply Hall.
      eapply nth_error_In. exact Hnth.
Qed.

(** X7.  A run of [Test] that returns has changed nothing but standard
    error: below verbosity 1 it has written nothing at all; from verbosity
    1 on it has written, for each round in turn, the four INFO lines with
    the weight type and the three weights drawn, and nothing else. *)
Theorem Test_return_output :
  forall iterations test_division g (w w' : World E) g',
    Test weight_generator_ FILE_ iterations test_division g w = (Ret g', w') ->
    w' = logged w
           (verbose (FLAGS_v w)
              (run_log (samples weight_generator_ (Z.to_nat iterations) g)))
    /\ ((FLAGS_v w < 1)%Z -> w' = w).
Proof.
  intros iterations td g w w' g' H. unfold Test in H.
  destruct (Test_loop_run (Z.to_nat iterations) td g w)
    as [Hrun|(k & expr & line & _ & Hrun)];
    rewrite Hrun in H; [|discriminate].
  inversion H; subst. split; [reflexivity|].
  intros Hv. unfold verbose.
  destruct (Z.leb_spec 1 (FLAGS_v w)) as [Hle|_]; [lia|].
  apply logged_nil.
Qed.

(** X8.  For a weight type whose copy constructor and assignment
    reproduce the value they are given, a run of [Test] that does not
    return stopped in the first round whose triple breaks a law: all
    rounds before it satisfied every law, the exit code is 1, and standard
    error has received the INFO lines of the rounds up to and including
    that one (from verbosity 1 on) and then the report of one failed
    check, nothing after it. *)
Theorem Test_exit_at_first_broken_round :
  forall iterations test_division g (w w' : World E) code,
    faithful_copies ->
    Test weight_generator_ FILE_ iterations test_division g w
      = (Exit code, w') ->
    code = 1%Z /\
    exists k t expr line,
      let ts := samples weight_generator_ (Z.to_nat iterations) g in
      nth_error ts k = Some t /\
      Forall (all_laws test_division) (firstn k ts) /\
      ~ all_laws test_division t /\
      w' = logged w (verbose (FLAGS_v w) (run_log (firstn (S k) ts))
                     ++ check_failed_message expr FILE_ line).
Proof.
  intros iterations td g w w' code Hcopy H. unfold Test in H.
  destruct (Test_loop_cases (Z.to_nat iterations) td g w Hcopy)
    as [[_ Hrun]|(k & t & expr & line & Hnth & Hpre & Hbad & Hrun)];
    rewrite Hrun in H; [discriminate|].
  inversion H; subst. split; [reflexivity|].
  exists k, t, expr, line. cbv zeta. auto.
Qed.

(** X9.  A run of [Test] that returns has called the generator exactly
    three times per round; and with no round to run, that is with
    [iterations] zero or negative, [Test] returns at once whatever the
    weight type, without a call of the generator and without a check. *)
Theorem Test_draws_three_per_round :
  forall iterations test_division g (w : World E),
    (forall g' w',
        Test weight_generator_ FILE_ iterations test_division g w
          = (Ret g', w') ->
        g' = draws weight_generator_ (3 * Z.to_nat iterations) g) /\
    ((iterations <= 0)%Z ->
     Test weight_generator_ FILE_ iterations test_division g w = (Ret g, w)).
Proof.
  intros iterations td g w. unfold Test. split.
  - intros g' w' H.
    destruct (Test_loop_run (Z.to_nat iterations) td g w)
      as [Hrun|(k & expr & line & _ & Hrun)];
      rewrite Hrun in H; [|discriminate].
    now inversion H.
  - intros Hle. replace (Z.to_nat iterations) with 0%nat by lia.
    reflexivity.
Qed.

Lemma bind_ext {A B} (m : M E A) (k1 k2 : A -> M E B) w :
  (forall a w1, k1 a w1 = k2 a w1) -> bind m k1 w = bind m k2 w.
Proof.
  intros H. unfold bind. destruct (m w) as [[a|c] w1]; [apply H | reflexivity].
Qed.

Lemma Test_loop_add a b td g (w : World E) :
  Test_loop weight_generator_ FILE_ (a + b) td g w =
  bind (Test_loop weight_generator_ FILE_ a td g)
       (fun g' => Test_loop weight_generator_ FILE_ b td g') w.
Proof.
  revert g w. induction a as [|a IH]; intros g w; [reflexivity|].
  cbn [Nat.add Test_loop].
  destruct (draw3 weight_generator_ g) as [[[w1 w2] w3] g1].
  rewrite bind_assoc. apply bind_ext. intros _ wa. apply IH.
Qed.

(** X10.  Two calls of [Test] in a row on one tester, of [a] and then [b]
    rounds, are one call of [a + b] rounds: the generator goes on from
    where the first call left it, and a failure in the first call ends
    the process before the second starts. *)
Theorem Test_twice_is_Test_of_sum :
  forall a b test_division g (w : World E),
    (0 <= a)%Z -> (0 <= b)%Z ->
    Test weight_generator_ FILE_ (a + b) test_division g w =
    bind (Test weight_generator_ FILE_ a test_division g)
         (fun g' => Test weight_generator_ FILE_ b test_division g') w.
Proof.
  intros a b td g w Ha Hb. unfold Test.
  rewrite Z2Nat.inj_add by assumption.
  apply Test_loop_add.
Qed.

End MoreTesterFacts.

(* ================================================================= *)
(** ** More of fsttopsort-main.cc *)

Lemma append_same_l (a s : string) : a ++ s = a -> s = EmptyString.
Proof.
  induction a as [|c a IH]; simpl; intros H; [exact H|].
  injection H as H. now apply IH.
Qed.

Section MoreDriverFacts.

Import TopSortMain.

Variable Fst : Type.
Variable SET_FLAGS : string -> list string -> list string.
Variable MutableFstClass_Read : string -> bool -> option Fst.
Variable TopSort : Fst -> bool * Fst.
Variable MutableFstClass_Write : Fst -> string -> bool.

Local Abbreviation main :=
  (fsttopsort_main Fst SET_FLAGS MutableFstClass_Read TopSort
     MutableFstClass_Write).

(** The line the driver writes for a cyclic graph. *)
Local Abbreviation warning argv :=
  ("WARNING: " ++ arg argv 0 ++ ": Input FST is cyclic" ++ endl).

Lemma bind_call {A} (c : Call Fst) (k : unit -> M (Call Fst) A) w :
  bind (call c) k w
  = k tt (mkWorld (cerr w) (FLAGS_v w) (trace w ++ [c])).
Proof. reflexivity. Qed.

(** The three ways through the driver. *)
Lemma main_cases argv0 (w : World (Call Fst)) :
  let argv := SET_FLAGS (usage_of argv0) argv0 in
  let argc := Z.of_nat (List.length argv) in
  ((3 < argc)%Z /\
   main argv0 w =
   (Ret 1%Z,
    mkWorld (cerr w) (FLAGS_v w)
      (trace w ++ [CallSetFlags (usage_of argv0); CallShowUsage])))
  \/
  ((argc <= 3)%Z /\
   MutableFstClass_Read (in_name_of argv) true = None /\
   main argv0 w =
   (Ret 1%Z,
    mkWorld (cerr w) (FLAGS_v w)
      (trace w ++ [CallSetFlags (usage_of argv0);
                   CallRead (in_name_of argv)])))
  \/
  ((argc <= 3)%Z /\
   exists g,
     MutableFstClass_Read (in_name_of argv) true = Some g /\
     main argv0 w =
     (Ret (if MutableFstClass_Write (snd (TopSort g)) (out_name_of argv)
           then 0%Z else 1%Z),
      mkWorld (if fst (TopSort g) then cerr w else cerr w ++ warning argv)
        (FLAGS_v w)
        (trace w ++ [CallSetFlags (usage_of argv0);
                     CallRead (in_name_of argv);
                     CallTopSort g;
                     CallWrite (snd (TopSort g)) (out_name_of argv)]))).
Proof.
  intros argv argc. subst argc. unfold fsttopsort_main. fold argv.
  rewrite bind_call.
  destruct (Z.gtb_spec (Z.of_nat (List.length argv)) 3) as [Hgt|Hle].
  - left. split; [lia|].
    rewrite bind_call. unfold ret. cbn [cerr FLAGS_v trace].
    now rewrite <- app_assoc.
  - right. rewrite bind_call.
    destruct (MutableFstClass_Read (in_name_of argv) true) as [g|] eqn:Hread.
    + right. split; [exact Hle|]. exists g. split; [reflexivity|].
      rewrite bind_call.
      destruct (TopSort g) as [a g']. cbn [fst snd].
      destruct a; cbn [negb when].
      * rewrite bind_ret_l, bind_call. unfold ret.
        cbn [cerr FLAGS_v trace]. now rewrite <- !app_assoc.
      * erewrite bind_Ret by apply cyclic_warning.
        rewrite bind_call. unfold ret.
        cbn [cerr FLAGS_v trace]. now rewrite <- !app_assoc.
    + left. split; [exact Hle|]. split; [reflexivity|].
      unfold ret. cbn [cerr FLAGS_v trace]. now rewrite <- app_assoc.
Qed.

(** X11.  Started with a program name in [argv[0]], which the flags leave
    in place, the driver always returns, with 0 or 1, and never ends the
    process itself; it returns 0 exactly when at most three arguments are
    left by the flags, the read gives a graph, and the write of the graph
    [TopSort] leaves succeeds.  The verdict of [TopSort] has no part in
    the exit code. *)
Theorem exit_code_is_0_iff_read_and_written :
  forall argv0 (w : World (Call Fst)),
    let argv := SET_FLAGS (usage_of argv0) argv0 in
    let out := main argv0 w in
    argv0 <> [] ->
    argv <> [] ->
    (fst out = Ret 0%Z \/ fst out = Ret 1%Z) /\
    (fst out = Ret 0%Z <->
     (Z.of_nat (List.length argv) <= 3)%Z /\
     exists g,
       MutableFstClass_Read (in_name_of argv) true = Some g /\
       MutableFstClass_Write (snd (TopSort g)) (out_name_of argv) = true).
Proof.
  intros argv0 w argv out _ _. subst out.
  pose proof (main_cases argv0 w) as Hcases. cbv zeta in Hcases.
  fold argv in Hcases. destruct Hcases
    as [[Hgt ->]|[(Hle & Hread & ->)|(Hle & g & Hread & ->)]];
    cbn [fst].
  - split; [now right|]. split; [discriminate|]. intros [H _]. lia.
  - split; [now right|]. split; [discriminate|].
    intros (_ & g & Hg & _). congruence.
  - destruct (MutableFstClass_Write (snd (TopSort g)) (out_name_of argv))
      eqn:Hw.
    + split; [now left|]. split; [|reflexivity].
      intros _. split; [exact Hle|]. now exists g.
    + split; [now right|]. split; [discriminate|].
      intros (_ & g' & Hg' & Hw').
      rewrite Hread in Hg'. injection Hg' as <-. congruence.
Qed.

(** X12.  The calls of a run of the driver are, after the parse of the
    flags, one of three sequences: [ShowUsage] alone; a read alone; or a
    read, one [TopSort] of the graph read and one write of the graph
    [TopSort] left.  So a graph is written at most once, never without
    having been sorted, nothing is read after a usage error, and the
    output name is never opened when the read failed. *)
Theorem calls_in_one_of_three_orders :
  forall argv0 (w : World (Call Fst)),
    let argv := SET_FLAGS (usage_of argv0) argv0 in
    exists calls,
      trace (snd (main argv0 w))
        = (trace w ++ CallSetFlags (usage_of argv0) :: calls)%list /\
      (calls = [CallShowUsage] \/
       calls = [CallRead (in_name_of argv)] \/
       exists g,
         MutableFstClass_Read (in_name_of argv) true = Some g /\
         calls = [CallRead (in_name_of argv);
                  CallTopSort g;
                  CallWrite (snd (TopSort g)) (out_name_of argv)]) /\
      count is_write calls = count is_topsort calls /\
      (count is_topsort calls <= count is_read calls <= 1)%nat.
Proof.
  intros argv0 w argv.
  pose proof (main_cases argv0 w) as Hcases. cbv zeta in Hcases.
  fold argv in Hcases. destruct Hcases
    as [[Hgt ->]|[(Hle & Hread & ->)|(Hle & g & Hread & ->)]];
    cbn [snd trace].
  - exists [CallShowUsage]. unfold count. simpl.
    split; [reflexivity|]. split; [now left|]. split; [reflexivity|]. lia.
  - exists [CallRead (in_name_of argv)]. unfold count. simpl.
    split; [reflexivity|]. split; [right; now left|].
    split; [reflexivity|]. lia.
  - exists [CallRead (in_name_of argv); CallTopSort g;
            CallWrite (snd (TopSort g)) (out_name_of argv)].
    unfold count. simpl. split; [reflexivity|].
    split; [right; right; now exists g|]. split; [reflexivity|]. lia.
Qed.

(** X13.  Started with a program name in [argv[0]], which the flags
    leave in place, the driver writes on standard error itself in one case
    only: a graph was read and [TopSort] found it cyclic.  A usage error
    and a failed read leave standard error as the driver found it, and so
    does a failed write; what the library calls write there is theirs. *)
Theorem stderr_written_iff_cyclic :
  forall argv0 (w : World (Call Fst)),
    let argv := SET_FLAGS (usage_of argv0) argv0 in
    let out := main argv0 w in
    argv0 <> [] ->
    argv <> [] ->
    (cerr (snd out) <> cerr w <->
     (Z.of_nat (List.length argv) <= 3)%Z /\
     exists g,
       MutableFstClass_Read (in_name_of argv) true = Some g /\
       fst (TopSort g) = false).
Proof.
  intros argv0 w argv out _ _. subst out.
  pose proof (main_cases argv0 w) as Hcases. cbv zeta in Hcases.
  fold argv in Hcases. destruct Hcases
    as [[Hgt ->]|[(Hle & Hread & ->)|(Hle & g & Hread & ->)]];
    cbn [snd cerr].
  - split; [congruence|]. intros [H _]. lia.
  - split; [congruence|].
    intros (_ & g & Hg & _). congruence.
  - destruct (fst (TopSort g)) eqn:Hv.
    + split; [congruence|].
      intros (_ & g' & Hg' & Hv').
      rewrite Hread in Hg'. injection Hg' as <-. congruence.
    + split.
      * intros _. split; [exact Hle|]. now exists g.
      * intros _ Heq. apply append_same_l in Heq. discriminate.
Qed.

(** X14.  With at most three arguments left by the flags, the driver reads
    from the empty name (standard input) when there is no input argument
    and when the input argument is a single dash.  The output argument is
    passed on as it is: a dash there is a name like any other. *)
Theorem dash_is_standard_input_only_for_input :
  forall argv0 (w : World (Call Fst)),
    let argv := SET_FLAGS (usage_of argv0) argv0 in
    let new := [CallSetFlags (Fst := Fst) (usage_of argv0);
                CallRead EmptyString] in
    (Z.of_nat (List.length argv) <= 3)%Z ->
    ((List.length argv <= 1)%nat \/ arg argv 1 = "-" ->
     exists rest, trace (snd (main argv0 w)) = (trace w ++ new ++ rest)%list)
    /\
    (List.length argv = 3%nat ->
     forall g,
       MutableFstClass_Read (in_name_of argv) true = Some g ->
       In (CallWrite (snd (TopSort g)) (arg argv 2))
          (trace (snd (main argv0 w)))).
Proof.
  intros argv0 w argv new Hargc. split.
  - intros Hin.
    assert (Hname : in_name_of argv = EmptyString).
    { unfold in_name_of. destruct Hin as [Hlen| ->].
      - destruct (Z.gtb_spec (Z.of_nat (List.length argv)) 1); [lia|].
        reflexivity.
      - now rewrite andb_false_r. }
    subst new.
    pose proof (main_cases argv0 w) as Hcases. cbv zeta in Hcases.
  fold argv in Hcases. destruct Hcases
      as [[Hgt _]|[(_ & _ & ->)|(_ & g & _ & ->)]];
      [lia| |]; cbn [snd trace]; rewrite Hname.
    + now exists [].
    + now exists [CallTopSort g;
                  CallWrite (snd (TopSort g)) (out_name_of argv)].
  - intros Hlen g Hread.
    assert (Hname : out_name_of argv = arg argv 2).
    { unfold out_name_of. rewrite Hlen. reflexivity. }
    pose proof (main_cases argv0 w) as Hcases. cbv zeta in Hcases.
  fold argv in Hcases. destruct Hcases
      as [[Hgt _]|[(_ & Hnone & _)|(_ & g' & Hread' & ->)]];
      [lia|congruence|].
    rewrite Hread in Hread'. injection Hread' as <-.
    cbn [snd trace]. rewrite Hname.
    apply in_or_app. right. simpl. auto.
Qed.

End MoreDriverFacts.

(* ================================================================= *)
(** ** The further properties at concrete inputs *)

Section MoreRuns.

Import WeightTester Tropical TopSortMain.

Local Existing Instance openfst_masks.

Local Abbreviation run_at v wt ws n td :=
  (Test (E := unit) (masks := openfst_masks) (weight := wt) (cycle ws)
        "weight-tester.h" n td 0%nat (fresh unit v)).

Local Abbreviation toy_main :=
  (fsttopsort_main Toy.graph Toy.set_flags Toy.read Toy.topsort Toy.write).

(** An ERROR message goes on, a FATAL one does not. *)
Lemma FST_LOG_exits_iff_FATAL_witness :
  fst (FST_LOG (E := unit) "ERROR" (cerr_put "disk full") (fresh unit 0))
    = Ret tt /\
  fst (FST_LOG (E := unit) "FATAL" (cerr_put "disk full") (fresh unit 0))
    = Exit 1.
Proof.
  split.
  - destruct (FST_LOG_exits_iff_FATAL (E := unit) "ERROR"
                (cerr_put "disk full")
                (fun w => ex_intro _ "disk full" eq_refl) (fresh unit 0))
      as (s & _ & _ & _ & Hret).
    apply Hret. discriminate.
  - destruct (FST_LOG_exits_iff_FATAL (E := unit) "FATAL"
                (cerr_put "disk full")
                (fun w => ex_intro _ "disk full" eq_refl) (fresh unit 0))
      as (s & _ & _ & Hexit & _).
    apply Hexit. reflexivity.
Defined.

(** At verbosity 1 a message of level 2 is dropped. *)
Lemma VFST_LOG_gated_by_FLAGS_v_witness :
  VFST_LOG (E := unit) 2 (cerr_put "detail") (fresh unit 1)
    = (Ret tt, fresh unit 1).
Proof.
  destruct (VFST_LOG_gated_by_FLAGS_v (E := unit) 2 (cerr_put "detail")
              (fun w => ex_intro _ "detail" eq_refl) (fresh unit 1))
    as (s & _ & Hrun).
  rewrite Hrun. reflexivity.
Defined.

Lemma TestReverse_returns_iff_witness :
  reverse_laws (weight := tropical) (TFin 3) (TFin 5).
Proof.
  apply (proj1 (TestReverse_returns_iff (E := unit) (weight := tropical)
                  "weight-tester.h" (TFin 3) (TFin 5)
                  (fresh unit 0) (fresh unit 0))).
  vm_compute. reflexivity.
Defined.

Lemma TestEquality_returns_iff_witness :
  equality_laws (weight := tropical) (TFin 3) (TFin 5) TInf.
Proof.
  apply (proj1 (TestEquality_returns_iff (E := unit) (weight := tropical)
                  "weight-tester.h" (TFin 3) (TFin 5) TInf
                  (fresh unit 0) (fresh unit 0))).
  vm_compute. reflexivity.
Defined.

(** Division on the tropical type; and the type that declares none of the
    three properties is not examined. *)
Lemma TestDivision_returns_iff_witness :
  division_laws (weight := tropical) (TFin 3) (TFin 5) /\
  TestDivision (E := unit) (weight := undeclared) "weight-tester.h"
    (TFin 3) (TFin 5) (fresh unit 0) = (Ret tt, fresh unit 0).
Proof.
  split.
  - apply (proj1 (TestDivision_returns_iff (E := unit) (weight := tropical)
                    "weight-tester.h" (TFin 3) (TFin 5)
                    (fresh unit 0) (fresh unit 0))).
    vm_compute. reflexivity.
  - apply (proj2 (TestDivision_returns_iff (E := unit) (weight := undeclared)
                    "weight-tester.h" (TFin 3) (TFin 5)
                    (fresh unit 0) (fresh unit 0))).
    split; [|reflexivity].
    repeat split; intros H; vm_compute in H; discriminate.
Defined.

Lemma Test_returns_iff_all_laws_witness :
  Forall (all_laws (weight := tropical) true)
         (samples (cycle some_weights) (Z.to_nat 5) 0%nat).
Proof.
  apply (proj1 (Test_returns_iff_all_laws (E := unit) (weight := tropical)
                  (cycle some_weights) "weight-tester.h" 5%Z true 0%nat
                  (fresh unit 0)
                  (conj (fun w => eq_refl) (fun x w => eq_refl)))).
  exists 15%nat, (fresh unit 0). vm_compute. reflexivity.
Defined.

(** Two rounds at verbosity 1: eight lines. *)
Lemma Test_return_output_witness :
  snd (run_at 1%Z tropical some_weights 2%Z true) =
  logged (fresh unit 1)
    (verbose 1 (run_log (weight := tropical)
                  (samples (cycle some_weights) (Z.to_nat 2) 0%nat))).
Proof.
  apply (proj1 (Test_return_output (E := unit) (masks := openfst_masks)
                  (weight := tropical)
                  (cycle some_weights) "weight-tester.h" 2%Z true 0%nat
                  (fresh unit 1)
                  (snd (run_at 1%Z tropical some_weights 2%Z true)) 6%nat
                  ltac:(vm_compute; reflexivity))).
Defined.

(** The inexact type passes a first round that draws infinity first and
    dies in the second, whose first weight is 5. *)
Lemma Test_exit_at_first_broken_round_witness :
  let ws := [TInf; TFin 3; TFin 4; TFin 5; TFin 3; TFin 4] in
  exists k t expr line,
    nth_error (samples (cycle ws) (Z.to_nat 3) 0%nat) k = Some t /\
    Forall (all_laws (weight := inexact) true)
           (firstn k (samples (cycle ws) (Z.to_nat 3) 0%nat)) /\
    ~ all_laws (weight := inexact) true t /\
    snd (run_at 1%Z inexact ws 3%Z true) =
    logged (fresh unit 1)
      (verbose 1 (run_log (weight := inexact)
                    (firstn (S k) (samples (cycle ws) (Z.to_nat 3) 0%nat)))
       ++ check_failed_message expr "weight-tester.h" line).
Proof.
  intros ws.
  apply (proj2 (Test_exit_at_first_broken_round (E := unit)
                  (masks := openfst_masks) (weight := inexact) (cycle ws) "weight-tester.h"
                  3%Z true 0%nat (fresh unit 1)
                  (snd (run_at 1%Z inexact ws 3%Z true)) 1%Z
                  (conj (fun w => eq_refl) (fun x w => eq_refl))
                  ltac:(vm_compute; reflexivity))).
Defined.

Lemma Test_draws_three_per_round_witness :
  draws (cycle some_weights) (3 * Z.to_nat 5) 0%nat = 15%nat /\
  run_at 0%Z undeclared some_weights (-1)%Z true
    = (Ret 0%nat, fresh unit 0).
Proof.
  split.
  - symmetry.
    apply (proj1 (Test_draws_three_per_round (E := unit) (weight := tropical)
                    (cycle some_weights) "weight-tester.h" 5%Z true 0%nat
                    (fresh unit 0)) 15%nat (fresh unit 0)).
    vm_compute. reflexivity.
  - apply (proj2 (Test_draws_three_per_round (E := unit)
                    (weight := undeclared)
                    (cycle some_weights) "weight-tester.h" (-1)%Z true 0%nat
                    (fresh unit 0))).
    lia.
Defined.

Lemma Test_twice_is_Test_of_sum_witness :
  run_at 1%Z tropical some_weights (2 + 3)%Z true =
  bind (Test (E := unit) (weight := tropical) (cycle some_weights)
          "weight-tester.h" 2%Z true 0%nat)
       (fun g' => Test (E := unit) (weight := tropical) (cycle some_weights)
                    "weight-tester.h" 3%Z true g')
       (fresh unit 1).
Proof.
  apply (Test_twice_is_Test_of_sum (E := unit) (weight := tropical)
           (cycle some_weights) "weight-tester.h" 2%Z 3%Z true 0%nat
           (fresh unit 1)); lia.
Defined.

(** The chain is read, sorted and written: 0.  Written to a place that
    cannot be written: not 0. *)
Lemma exit_code_is_0_iff_read_and_written_witness :
  fst (toy_main ["fsttopsort"; "chain.fst"; "out.fst"] (fresh _ 0))
    = Ret 0%Z /\
  fst (toy_main ["fsttopsort"; "chain.fst"; "/readonly/out.fst"] (fresh _ 0))
    <> Ret 0%Z.
Proof.
  split.
  - apply (proj2 (proj2 (exit_code_is_0_iff_read_and_written
                           Toy.graph Toy.set_flags Toy.read Toy.topsort
                           Toy.write
                           ["fsttopsort"; "chain.fst"; "out.fst"]
                           (fresh _ 0)
                           ltac:(discriminate) ltac:(discriminate)))).
    split; [simpl; lia|].
    exists [(0, 2); (2, 1)]%nat. split; reflexivity.
  - intros H.
    apply (proj1 (proj2 (exit_code_is_0_iff_read_and_written
                           Toy.graph Toy.set_flags Toy.read Toy.topsort
                           Toy.write
                           ["fsttopsort"; "chain.fst"; "/readonly/out.fst"]
                           (fresh _ 0)
                           ltac:(discriminate) ltac:(discriminate)))) in H.
    destruct H as (_ & g & Hg & Hw).
    injection Hg as <-. discriminate Hw.
Defined.

Lemma calls_in_one_of_three_orders_witness :
  exists calls,
    trace (snd (toy_main ["fsttopsort"; "chain.fst"; "out.fst"] (fresh _ 0)))
      = CallSetFlags (usage_of ["fsttopsort"; "chain.fst"; "out.fst"])
          :: calls /\
    count is_write calls = count is_topsort calls.
Proof.
  destruct (calls_in_one_of_three_orders
              Toy.graph Toy.set_flags Toy.read Toy.topsort Toy.write
              ["fsttopsort"; "chain.fst"; "out.fst"] (fresh _ 0))
    as (calls & Htrace & _ & Hcount & _).
  exists calls. split; [exact Htrace | exact Hcount].
Defined.

(** The cycle makes the driver write; the chain does not. *)
Lemma stderr_written_iff_cyclic_witness :
  cerr (snd (toy_main ["fsttopsort"; "cycle.fst"] (fresh _ 0)))
    <> EmptyString.
Proof.
  apply (proj2 (stderr_written_iff_cyclic
                  Toy.graph Toy.set_flags Toy.read Toy.topsort
                  Toy.write ["fsttopsort"; "cycle.fst"] (fresh _ 0)
                  ltac:(discriminate) ltac:(discriminate))).
  split; [simpl; lia|].
  exists [(0, 1); (1, 2); (2, 0)]%nat. split; reflexivity.
Defined.

(** A dash as input is the empty name; a dash as output is a dash. *)
Lemma dash_is_standard_input_only_for_input_witness :
  (exists rest,
      trace (snd (toy_main ["fsttopsort"; "-"] (fresh _ 0)))
      = ([CallSetFlags (usage_of ["fsttopsort"; "-"]); CallRead EmptyString]
           ++ rest)%list) /\
  In (CallWrite [(0, 1); (1, 2); (2, 0)]%nat "-")
     (trace (snd (toy_main ["fsttopsort"; "cycle.fst"; "-"] (fresh _ 0)))).
Proof.
  split.
  - apply (proj1 (dash_is_standard_input_only_for_input
                    Toy.graph Toy.set_flags Toy.read Toy.topsort Toy.write
                    ["fsttopsort"; "-"] (fresh _ 0)
                    ltac:(simpl; lia))).
    right. reflexivity.
  - apply (proj2 (dash_is_standard_input_only_for_input
                    Toy.graph Toy.set_flags Toy.read Toy.topsort Toy.write
                    ["fsttopsort"; "cycle.fst"; "-"] (fresh _ 0)
                    ltac:(simpl; lia))
             eq_refl [(0, 1); (1, 2); (2, 0)]%nat eq_refl).
Defined.

End MoreRuns.
